(** * Text-to-speech front ends: markup builder and request validation

    A shallow embedding of [app.py] (the Flask front end) and of
    [PodcastCLI.generate_audio] in [podcast_cli.py], with the properties
    the specification states about them.

    Python strings are sequences of Unicode code points: a character is
    its code point, a string is a list of them, and [len] is [length]. *)

From Stdlib Require Import NArith List Ascii String Lia Bool.
From Stdlib Require Import Numbers.DecimalString.
From stdpp Require Import base option list gmap.
From Equations Require Import Equations.
Import ListNotations.

Local Open Scope N_scope.
Local Open Scope list_scope.

(** ** Strings *)

Abbreviation char := N (only parsing).
Abbreviation str := (list N) (only parsing).

(** An ASCII literal of the source, as a Python string. *)
Definition py (s : string) : str := map N_of_ascii (list_ascii_of_string s).

(** The double quote, U+0022. *)
Definition dq : char := 34.

(** [str.isspace] on one character, which is also what [\s] matches in a
    [re] pattern over [str]. *)
Definition isspace (c : char) : bool :=
  ((9 <=? c) && (c <=? 13)) || ((28 <=? c) && (c <=? 32))
  || (c =? 133) || (c =? 160) || (c =? 5760)
  || ((8192 <=? c) && (c <=? 8202))
  || (c =? 8232) || (c =? 8233) || (c =? 8239) || (c =? 8287) || (c =? 12288).

Fixpoint drop_while (f : char -> bool) (s : str) : str :=
  match s with
  | [] => []
  | c :: rest => if f c then drop_while f rest else s
  end.

Definition lstrip (s : str) : str := drop_while isspace s.
Definition rstrip (s : str) : str := rev (drop_while isspace (rev s)).

(** [s.strip()] *)
Definition strip (s : str) : str := rstrip (lstrip s).

(** [str(n)] for a non-negative integer. *)
Definition str_of_N (n : N) : str := py (NilZero.string_of_uint (N.to_uint n)).

(** Whether the text starts with a whitespace character. *)
Definition starts_with_space (s : str) : bool :=
  match s with
  | [] => false
  | c :: _ => isspace c
  end.

(** ** Markup builder *)

(** [re.sub(r'(C)\s+', r'\1' + brk, text)] for a one-character class [C]
    given by [cls]: scanning from the left, a character of the class that
    is followed by whitespace is kept, [brk] is written after it and the
    whole run of whitespace is skipped; the scan resumes after the run.
    Any other character is copied. *)
Equations re_sub_pause (cls : char -> bool) (brk : str) (text : str) : str
  by wf (length text) lt :=
  re_sub_pause cls brk [] := [];
  re_sub_pause cls brk (c :: rest) :=
    if cls c && starts_with_space rest
    then c :: brk ++ re_sub_pause cls brk (drop_while isspace rest)
    else c :: re_sub_pause cls brk rest.
Next Obligation.
  assert (length (drop_while isspace rest) <= length rest)%nat
    by (clear; induction rest as [|d r IH]; simpl; [lia | destruct (isspace d); simpl; lia]).
  simpl. lia.
Qed.

Definition is_sentence_end (c : char) : bool := (c =? 46) || (c =? 33) || (c =? 63).
Definition is_comma (c : char) : bool := c =? 44.

Definition break500 : str := py "<break time=" ++ dq :: py "500ms" ++ dq :: py "/> ".
Definition break300 : str := py "<break time=" ++ dq :: py "300ms" ++ dq :: py "/> ".

Definition add_ssml_pauses (text : str) : str :=
  let text := re_sub_pause is_sentence_end break500 text in
  let text := re_sub_pause is_comma break300 text in
  text.

(** [self.ssml_wrapper.format(prosody_text)] with
    [ssml_wrapper = '<speak>{}</speak>']. *)
Definition ssml_wrapper (inner : str) : str := py "<speak>" ++ inner ++ py "</speak>".

Definition create_ssml_with_prosody (text rate pitch : str) : str :=
  let text := add_ssml_pauses text in
  let prosody_text :=
    py "<prosody rate=" ++ dq :: rate ++ dq :: py " pitch=" ++ dq :: pitch
      ++ dq :: py ">" ++ text ++ py "</prosody>" in
  ssml_wrapper prosody_text.

(** *** The builder as the specification words it *)

(** The pause markers themselves, without the space the code writes after
    them. *)
Definition marker500 : str := py "<break time=" ++ dq :: py "500ms" ++ dq :: py "/>".
Definition marker300 : str := py "<break time=" ++ dq :: py "300ms" ++ dq :: py "/>".

(** The root element around a prosody directive with the given rate and
    pitch around [content]. *)
Definition prosody_open (rate pitch : str) : str :=
  py "<prosody rate=" ++ dq :: rate ++ dq :: py " pitch=" ++ dq :: pitch ++ dq :: py ">".

Definition wrapped (rate pitch content : str) : str :=
  py "<speak>" ++ prosody_open rate pitch ++ content ++ py "</prosody>" ++ py "</speak>".

(** The text with a marker inserted after each mark that is followed by
    whitespace, and every character of the text kept. *)
Fixpoint pauses_inserted (T : str) : str :=
  match T with
  | [] => []
  | c :: rest =>
      if is_sentence_end c && starts_with_space rest then c :: marker500 ++ pauses_inserted rest
      else if is_comma c && starts_with_space rest then c :: marker300 ++ pauses_inserted rest
      else c :: pauses_inserted rest
  end.

(** The text in one pass: after a mark that is followed by whitespace, the
    marker and a single space stand for the whole run of whitespace. *)
Equations pauses_replacing_runs (T : str) : str by wf (length T) lt :=
  pauses_replacing_runs [] := [];
  pauses_replacing_runs (c :: rest) :=
    if is_sentence_end c && starts_with_space rest
    then c :: marker500 ++ 32 :: pauses_replacing_runs (drop_while isspace rest)
    else if is_comma c && starts_with_space rest
    then c :: marker300 ++ 32 :: pauses_replacing_runs (drop_while isspace rest)
    else c :: pauses_replacing_runs rest.
Next Obligation.
  assert (length (drop_while isspace rest) <= length rest)%nat
    by (clear; induction rest as [|d r IH]; simpl; [lia | destruct (isspace d); simpl; lia]).
  simpl. lia.
Qed.
Next Obligation.
  assert (length (drop_while isspace rest) <= length rest)%nat
    by (clear; induction rest as [|d r IH]; simpl; [lia | destruct (isspace d); simpl; lia]).
  simpl. lia.
Qed.

(** Every mark of the text that is followed by whitespace is followed by
    exactly one U+0020 and then by no further whitespace. *)
Fixpoint single_spaced (T : str) : bool :=
  match T with
  | [] => true
  | c :: rest =>
      (if (is_sentence_end c || is_comma c) && starts_with_space rest
       then match rest with
            | w :: rest' => (w =? 32) && negb (starts_with_space rest')
            | [] => true
            end
       else true) && single_spaced rest
  end.

(** [T] is a subsequence of [U]: [U] is [T] with characters inserted. *)
Fixpoint subsequence (T U : str) : bool :=
  match U with
  | [] => match T with [] => true | _ => false end
  | u :: U' =>
      match T with
      | [] => true
      | t :: T' => if t =? u then subsequence T' U' else subsequence T U'
      end
  end.

(** ** The world the front ends act on *)

(** One [polly_client.synthesize_speech(...)] call, by keyword argument;
    [TextType] is absent from the plain-text call. *)
Record synth_call := {
  Text : str;
  TextType : option str;
  OutputFormat : str;
  VoiceId : str;
  Engine : str
}.

(** What [PodcastCLI.generate_audio] prints, by group of [print] calls. *)
Inductive cli_line :=
| Generating (voice_id engine : str) (text_length : N)
    (* "Generating audio...", "Voice:", "Engine:", "Text length:" *)
| TooLongWarning (text_length max_chars : N)
    (* "Text is too long (... chars, max ...)", "Consider splitting ..." *)
| Succeeded (output_file : str) (file_size : N)
    (* "SUCCESS!", "File:", "Size:" (the size shown in KB, two decimals) *)
| Errored (msg : str).
    (* "Error: ..." *)

Record world := {
  files : gmap str (list Byte.byte);   (* the file system: path to content *)
  polly_log : list synth_call;         (* the calls sent to the provider, oldest first *)
  clock : str;                         (* datetime.now().strftime('%Y%m%d_%H%M%S') *)
  stdout : list cli_line               (* what the CLI has printed, oldest first *)
}.

(** Code that may raise: the outcome is [inl msg] for an exception [e] with
    [str(e) = msg], together with the world it leaves. *)
Definition io (A : Type) : Type := world -> (str + A) * world.

#[global] Instance io_ret : MRet io := fun A a w => (inr a, w).

#[global] Instance io_bind : MBind io := fun A B k m w =>
  match m w with
  | (inl e, w') => (inl e, w')
  | (inr a, w') => k a w'
  end.

(** [try: body  except Exception as e: handler(str(e))] *)
Definition try_except {A} (body : io A) (handler : str -> io A) : io A :=
  fun w => match body w with
           | (inl e, w') => handler e w'
           | (inr a, w') => (inr a, w')
           end.

Definition len (s : str) : N := N.of_nat (length s).

(** [os.path.join(a, b)] of [posixpath]. *)
Definition path_join (a b : str) : str :=
  match b with
  | 47 :: _ => b
  | _ => match rev a with
         | [] => b
         | 47 :: _ => a ++ b
         | _ => a ++ 47 :: b
         end
  end.

(** [app.config['OUTPUT_FOLDER']] *)
Definition OUTPUT_FOLDER : str := py "output".

Definition now_strftime : io str := fun w => (inr (clock w), w).

Definition print (l : cli_line) : io unit :=
  fun w => (inr tt, {| files := files w; polly_log := polly_log w;
                       clock := clock w; stdout := stdout w ++ [l] |}).

(** [os.path.getsize(path)] *)
Definition getsize (path : str) : io N :=
  fun w => match files w !! path with
           | Some content => (inr (N.of_nat (length content)), w)
           | None => (inl (py "[Errno 2] No such file or directory: " ++ path), w)
           end.

(** The response of the provider: [response['AudioStream'].read()] gives
    the audio bytes, or raises. *)
Record polly_response := { AudioStream : str + list Byte.byte }.

(** [stream.read()] *)
Definition read (stream : str + list Byte.byte) : io (list Byte.byte) :=
  fun w => (stream, w).

(** [f.write(content)] on the file opened at [path]. *)
Definition write (path : str) (content : list Byte.byte) : io unit :=
  fun w => (inr tt, {| files := <[path := content]> (files w);
                       polly_log := polly_log w;
                       clock := clock w; stdout := stdout w |}).

(** The collaborators outside the program: the speech provider and the
    operating system. *)
Record platform := {
  (* [synthesize_speech] on the call: the response, or the message of the
     exception raised *)
  synthesize_speech : synth_call -> str + polly_response;
  (* [open(path, 'wb')]: the message of the [OSError] raised, if any *)
  open_error : str -> option str;
  (* [Path(path).parent.mkdir(parents=True, exist_ok=True)]: likewise *)
  mkdir_error : str -> option str
}.

Section Effects.

Variable env : platform.

(** [self.polly_client.synthesize_speech(...)] *)
Definition polly (call : synth_call) : io polly_response :=
  fun w =>
    (synthesize_speech env call,
     {| files := files w; polly_log := polly_log w ++ [call];
        clock := clock w; stdout := stdout w |}).

(** [open(path, 'wb')]: the file is created, or emptied if it exists. *)
Definition open_wb (path : str) : io unit :=
  fun w =>
    match open_error env path with
    | Some e => (inl e, w)
    | None => (inr tt, {| files := <[path := []]> (files w);
                          polly_log := polly_log w;
                          clock := clock w; stdout := stdout w |})
    end.

Definition mkdir_parent (path : str) : io unit :=
  fun w =>
    match mkdir_error env path with
    | Some e => (inl e, w)
    | None => (inr tt, w)
    end.

End Effects.

(** ** The voice catalog *)

(** One entry of [response['Voices']] in the answer of [describe_voices]. *)
Record polly_voice := {
  Id : str;
  Name : str;
  Gender : str;
  LanguageCode : str;
  LanguageName : str;
  SupportedEngines : option (list str)   (* the key may be absent *)
}.

(** A Python dict with string keys: its items in insertion order, each key
    once. [d.get(k)]: *)
Fixpoint dict_get {A} (k : str) (d : list (str * A)) : option A :=
  match d with
  | [] => None
  | (k', v) :: d' => if bool_decide (k' = k) then Some v else dict_get k d'
  end.

(** [d[k] = v]: in the place of the key when it is there, at the end when
    it is new. *)
Fixpoint dict_set {A} (k : str) (v : A) (d : list (str * A)) : list (str * A) :=
  match d with
  | [] => [(k, v)]
  | (k', v') :: d' => if bool_decide (k' = k) then (k, v) :: d' else (k', v') :: dict_set k v d'
  end.

Definition dict_keys {A} (d : list (str * A)) : list str := map fst d.
Definition dict_values {A} (d : list (str * A)) : list A := map snd d.

(** One turn of the loop of [get_available_voices] and of [load_voices]:
    [entry voice] is what the loop appends for the voice. [inl] stands for
    the [KeyError] of [voices[lang]], with its message. *)
Definition group_step {A} (entry : polly_voice -> A) (voices : list (str * list A))
    (voice : polly_voice) : str + list (str * list A) :=
  let lang := LanguageCode voice in
  let voices := match dict_get lang voices with
                | None => dict_set lang [] voices
                | Some _ => voices
                end in
  match dict_get lang voices with
  | Some group => inr (dict_set lang (group ++ [entry voice]) voices)
  | None => inl (py "'" ++ lang ++ py "'")
  end.

Fixpoint group_loop {A} (entry : polly_voice -> A) (voices : list (str * list A))
    (Voices : list polly_voice) : str + list (str * list A) :=
  match Voices with
  | [] => inr voices
  | voice :: rest =>
      match group_step entry voices voice with
      | inr voices' => group_loop entry voices' rest
      | inl e => inl e
      end
  end.

(** ** The terminal of the CLI *)

(** The exceptions the menus tell apart. *)
Inductive exn :=
| ValueError (msg : str)
| EOFError
| OtherError (msg : str).

(** The prompts of [input]. *)
Inductive prompt :=
| NoPrompt                              (* input() *)
| AskLanguage                           (* "Select language (number): " *)
| AskOutputFilename (default : str)     (* "Output filename (default: ...): " *)
| AskFilePath                           (* "Enter file path: " *)
| AskChoice                             (* "Your choice: " *)
| AskVoiceNumber                        (* "Select voice number: " *)
| AskEngine                             (* "Your choice (default: 1): " *)
| AskSampleText.                        (* "Enter sample text (or press Enter for default): " *)

(** What the menus print, by group of [print] calls, and the prompts shown. *)
Inductive menu_line :=
| Asked (p : prompt)
| EnterYourText                         (* "Enter your text (type 'END' ...)" *)
| NoTextEntered                         (* "No text entered!" *)
| FileNotFound (filepath : str)         (* "File not found: ..." *)
| Loaded (characters : N) (filepath : str)  (* "Loaded ... characters from ..." *)
| ErrorReadingFile (msg : exn)          (* "Error reading file: ..." *)
| PopularVoices (names : list str)      (* "SELECT VOICE:", "Popular Voices:", the names, "See all voices" *)
| AllVoices (all_voices : list polly_voice)  (* "All Available Voices:" and one line a voice *)
| EngineMenu                            (* "Engine:", "1. Neural ...", "2. Standard" *)
| InvalidChoice                         (* "Invalid choice!" *)
| EnterANumber                          (* "Please enter a number!" *)
| GeneratingSamples (voices : N).       (* "Generating samples for ... voices..." *)

(** The CLI at work: the world, the lines still to come on standard input,
    and what the menus have printed (the lines of [generate_audio] are in
    [stdout] of the world). *)
Record console := {
  inner : world;
  stdin : list str;
  screen : list menu_line
}.

Definition cli (A : Type) : Type := console -> (exn + A) * console.

#[global] Instance cli_ret : MRet cli := fun A a c => (inr a, c).

#[global] Instance cli_bind : MBind cli := fun A B k m c =>
  match m c with
  | (inl e, c') => (inl e, c')
  | (inr a, c') => k a c'
  end.

Definition throw {A} (e : exn) : cli A := fun c => (inl e, c).

(** [try: body  except ValueError: handler] *)
Definition except_ValueError {A} (body handler : cli A) : cli A :=
  fun c => match body c with
           | (inl (ValueError _), c') => handler c'
           | r => r
           end.

(** [try: body  except Exception as e: handler(e)] *)
Definition except_Exception {A} (body : cli A) (handler : exn -> cli A) : cli A :=
  fun c => match body c with
           | (inl e, c') => handler e c'
           | r => r
           end.

(** A call of a method that acts on the world only. *)
Definition call {A} (m : io A) : cli A :=
  fun c => match m (inner c) with
           | (inl e, w') => (inl (OtherError e), {| inner := w'; stdin := stdin c; screen := screen c |})
           | (inr a, w') => (inr a, {| inner := w'; stdin := stdin c; screen := screen c |})
           end.

Definition say (l : menu_line) : cli unit :=
  fun c => (inr tt, {| inner := inner c; stdin := stdin c; screen := screen c ++ [l] |}).

(** [input(prompt)]: the prompt is shown and the next line read;
    [EOFError] when there is none. *)
Definition input (p : prompt) : cli str :=
  fun c =>
    let shown := match p with NoPrompt => screen c | _ => screen c ++ [Asked p] end in
    match stdin c with
    | [] => (inl EOFError, {| inner := inner c; stdin := []; screen := shown |})
    | line :: rest => (inr line, {| inner := inner c; stdin := rest; screen := shown |})
    end.


(** [sep.join(lines)] *)
Fixpoint join (sep : str) (lines : list str) : str :=
  match lines with
  | [] => []
  | [line] => line
  | line :: rest => line ++ sep ++ join sep rest
  end.

(** [s.endswith(suffix)] *)
Definition endswith (s suffix : str) : bool :=
  bool_decide (drop (length s - length suffix) s = suffix)
  && bool_decide (length suffix <= length s)%nat.


(** ** app.py *)

Module app.

(** The dict [PodcastGenerator.generate_audio] returns. *)
Inductive audio_result :=
| AudioOk (filename path : str) (size : N)
| AudioFailed (error : str).

(** The JSON object posted to [/api/generate]: each key may be absent.
    Present keys carry the types the API documents, a string each and a
    boolean for [useSSML]. *)
Record json_body := {
  body_text : option str;
  body_voice : option str;
  body_engine : option str;
  body_useSSML : option bool;
  body_rate : option str;
  body_pitch : option str
}.

(** The JSON objects the endpoint answers with. *)
Inductive response_body :=
| Success (filename : str) (size : N) (downloadUrl : str)
| Failure (error : str).

Inductive http_response := Response (status : N) (body : response_body).

Section Handlers.

Variable env : platform.

Definition generate_audio (text voice_id engine : str) (use_ssml : bool)
    (rate pitch : str) : io audio_result :=
  try_except
    (timestamp ← now_strftime;
     let filename := py "podcast_" ++ voice_id ++ py "_" ++ timestamp ++ py ".mp3" in
     let output_path := path_join OUTPUT_FOLDER filename in
     response ← (if use_ssml then
                   let ssml_text := create_ssml_with_prosody text rate pitch in
                   polly env {| Text := ssml_text; TextType := Some (py "ssml");
                                OutputFormat := py "mp3"; VoiceId := voice_id;
                                Engine := engine |}
                 else
                   polly env {| Text := text; TextType := None;
                                OutputFormat := py "mp3"; VoiceId := voice_id;
                                Engine := engine |});
     open_wb env output_path;;
     audio ← read (AudioStream response);
     write output_path audio;;
     file_size ← getsize output_path;
     mret (AudioOk filename output_path file_size))
    (fun e => mret (AudioFailed e)).

Definition generate_podcast (data : json_body) : io http_response :=
  try_except
    (let text := strip (default [] (body_text data)) in
     let voice_id := default (py "Joanna") (body_voice data) in
     let engine := default (py "neural") (body_engine data) in
     let use_ssml := default false (body_useSSML data) in
     let rate := default (py "medium") (body_rate data) in
     let pitch := default (py "medium") (body_pitch data) in
     if bool_decide (text = []) then
       mret (Response 400 (Failure (py "No text provided")))
     else
       let max_chars := if bool_decide (engine = py "neural") then 3000 else 6000 in
       if max_chars <? len text then
         mret (Response 400 (Failure
           (py "Text too long. Maximum " ++ str_of_N max_chars
              ++ py " characters for " ++ engine ++ py " engine.")))
       else
         result ← generate_audio text voice_id engine use_ssml rate pitch;
         match result with
         | AudioOk filename _ size =>
             mret (Response 200 (Success filename size (py "/download/" ++ filename)))
         | AudioFailed error => mret (Response 500 (Failure error))
         end)
    (fun e => mret (Response 500 (Failure e))).

End Handlers.

(** One voice as [get_available_voices] lists it. *)
Record voice_info := {
  info_id : str;                (* 'id' *)
  info_name : str;              (* 'name' *)
  info_gender : str;            (* 'gender' *)
  info_language : str;          (* 'language' *)
  info_languageCode : str;      (* 'languageCode' *)
  info_engines : list str       (* 'engines' *)
}.

Definition to_info (voice : polly_voice) : voice_info :=
  {| info_id := Id voice;
     info_name := Name voice;
     info_gender := Gender voice;
     info_language := LanguageName voice;
     info_languageCode := LanguageCode voice;
     info_engines := default [] (SupportedEngines voice) |}.

(** [PodcastGenerator.get_available_voices], on the answer of
    [describe_voices] (the voices, or the message of the exception
    raised): the dict returned and the error printed, if any. *)
Definition get_available_voices (describe_voices : str + list polly_voice)
    : list (str * list voice_info) * option str :=
  match describe_voices with
  | inl e => ([], Some e)
  | inr Voices =>
      match group_loop to_info [] Voices with
      | inr voices => (voices, None)
      | inl e => ([], Some e)
      end
  end.




End app.

(** ** podcast_cli.py *)

Module podcast_cli.

Section Cli.

Variable env : platform.

(** [PodcastCLI.generate_audio]; it returns nothing, its effects are
    on the world. *)
Definition generate_audio (text output_file voice_id engine : str) : io unit :=
  try_except
    (mkdir_parent env output_file;;
     print (Generating voice_id engine (len text));;
     let max_chars := if bool_decide (engine = py "neural") then 3000 else 6000 in
     if max_chars <? len text then
       print (TooLongWarning (len text) max_chars)
     else
       response ← polly env {| Text := text; TextType := None;
                               OutputFormat := py "mp3"; VoiceId := voice_id;
                               Engine := engine |};
       open_wb env output_file;;
       audio ← read (AudioStream response);
       write output_file audio;;
       file_size ← getsize output_file;
       print (Succeeded output_file file_size))
    (fun e => print (Errored e)).

End Cli.

(** [PodcastCLI.load_voices], on the answer of [describe_voices]: the dict
    kept in [self.voices] and the error printed, if any. *)
Definition load_voices (describe_voices : str + list polly_voice)
    : list (str * list polly_voice) * option str :=
  match describe_voices with
  | inl e => ([], Some e)
  | inr Voices =>
      match group_loop (fun voice => voice) [] Voices with
      | inr voices => (voices, None)
      | inl e => ([], Some e)
      end
  end.

Section Menus.

Variable env : platform.

(** [self.voices] *)
Variable voices : list (str * list polly_voice).

(** The builtin [int(s)]: the number, or [None] for a [ValueError]. *)
Variable int : str -> option Z.

(** The builtin [s.upper()]. *)
Variable upper : str -> str.

Definition to_int (s : str) : cli Z :=
  match int s with
  | Some z => mret z
  | None => throw (ValueError (py "invalid literal for int() with base 10"))
  end.

(** [l[i]] for an index that is not negative. *)
Definition item {A} (l : list A) (i : Z) : cli A :=
  match l !! Z.to_nat i with
  | Some x => mret x
  | None => throw (OtherError (py "list index out of range"))
  end.

Definition select_engine (voice : polly_voice) : cli str :=
  let supported := default [] (SupportedEngines voice) in
  if bool_decide (py "neural" ∈ supported) && bool_decide (py "standard" ∈ supported) then
    say EngineMenu;;
    except_ValueError
      (answer ← input AskEngine;
       choice ← to_int (if bool_decide (strip answer = []) then py "1" else strip answer);
       mret (if bool_decide (choice = 1%Z) then py "neural" else py "standard"))
      (mret (py "neural"))
  else if bool_decide (py "neural" ∈ supported) then mret (py "neural")
  else mret (py "standard").

Definition select_from_all_voices : cli (option polly_voice) :=
  let all_voices := concat (dict_values voices) in
  say (AllVoices all_voices);;
  except_ValueError
    (answer ← input AskVoiceNumber;
     choice ← to_int answer;
     if bool_decide (1 <= choice)%Z && bool_decide (choice <= Z.of_nat (length all_voices))%Z
     then v ← item all_voices (choice - 1); mret (Some v)
     else say InvalidChoice;; mret None)
    (say EnterANumber;; mret None).

(** The two nested [for] loops of [select_voice]: the first voice of the
    name, in the order of the dict and of its lists. *)
Fixpoint find_by_name (voice_name : str) (groups : list (list polly_voice))
    : option polly_voice :=
  match groups with
  | [] => None
  | group :: rest =>
      match find (fun v => bool_decide (Name v = voice_name)) group with
      | Some v => Some v
      | None => find_by_name voice_name rest
      end
  end.

Definition popular : list str :=
  [py "Joanna"; py "Matthew"; py "Amy"; py "Brian"; py "Emma"; py "Justin"].

Definition select_voice : cli (option polly_voice) :=
  say (PopularVoices popular);;
  except_ValueError
    (answer ← input AskChoice;
     choice ← to_int answer;
     if bool_decide (1 <= choice)%Z && bool_decide (choice <= Z.of_nat (length popular))%Z
     then
       voice_name ← item popular (choice - 1);
       mret (find_by_name voice_name (dict_values voices))
     else if bool_decide (choice = Z.of_nat (length popular) + 1)%Z
     then select_from_all_voices
     else say InvalidChoice;; mret None)
    (say EnterANumber;; mret None).

(** The [while True] loop of [text_input_mode], on the lines still to
    come: the lines read before the one that says END, and the lines left
    after it. *)
Fixpoint read_until_end (pending lines : list str) : (exn + list str) * list str :=
  match pending with
  | [] => (inl EOFError, [])
  | line :: rest =>
      if bool_decide (upper (strip line) = py "END") then (inr lines, rest)
      else read_until_end rest (lines ++ [line])
  end.

Definition read_text_lines : cli (list str) :=
  fun c =>
    let (lines, rest) := read_until_end (stdin c) [] in
    (lines, {| inner := inner c; stdin := rest; screen := screen c |}).

Definition text_input_mode : cli unit :=
  say EnterYourText;;
  lines ← read_text_lines;
  let text := join (py " ") lines in
  if bool_decide (strip text = []) then say NoTextEntered
  else
    voice ← select_voice;
    match voice with
    | None => mret tt
    | Some voice =>
        engine ← select_engine voice;
        answer ← input (AskOutputFilename (py "output/podcast.mp3"));
        let output_file := strip answer in
        let output_file :=
          if bool_decide (output_file = []) then py "output/podcast.mp3" else output_file in
        let output_file :=
          if endswith output_file (py ".mp3") then output_file
          else output_file ++ py ".mp3" in
        call (generate_audio env text output_file (Name voice) engine)
    end.




End Menus.

Section FileMode.

Variable env : platform.
Variable voices : list (str * list polly_voice).
Variable int : str -> option Z.

(** What reading a file of these bytes in text mode with the encoding
    utf-8 gives: the text, or the exception raised. *)
Variable decode_text : list Byte.byte -> exn + str.

(** [Path(filepath).stem] *)
Variable stem : str -> str.

(** [os.path.exists(path)] *)
Definition path_exists (path : str) : cli bool :=
  fun c => (inr (bool_decide (is_Some (files (inner c) !! path))), c).

(** [with open(path, 'r', encoding='utf-8') as f: f.read()] *)
Definition read_text (path : str) : cli str :=
  fun c =>
    match files (inner c) !! path with
    | Some content => (decode_text content, c)
    | None => (inl (OtherError (py "[Errno 2] No such file or directory: " ++ path)), c)
    end.

Definition file_input_mode : cli unit :=
  answer ← input AskFilePath;
  let filepath := strip answer in
  found ← path_exists filepath;
  if negb found then say (FileNotFound filepath)
  else
    except_Exception
      (text ← read_text filepath;
       say (Loaded (len text) filepath);;
       voice ← select_voice voices int;
       match voice with
       | None => mret tt
       | Some voice =>
           engine ← select_engine int voice;
           let base_name := stem filepath in
           let output_file := py "output/" ++ base_name ++ py "_podcast.mp3" in
           answer ← input (AskOutputFilename output_file);
           let custom_name := strip answer in
           let output_file :=
             if bool_decide (custom_name = []) then output_file else custom_name in
           call (generate_audio env text output_file (Name voice) engine)
       end)
      (fun e => say (ErrorReadingFile e)).

End FileMode.

End podcast_cli.

(** ** Vocabulary of the claims *)

(** The limit both front ends compute from the engine. *)
Definition engine_limit (engine : str) : N :=
  if bool_decide (engine = py "neural") then 3000 else 6000.

(** The message of the length rejection of [/api/generate]. *)
Definition too_long_error (engine : str) : str :=
  py "Text too long. Maximum " ++ str_of_N (engine_limit engine)
    ++ py " characters for " ++ engine ++ py " engine.".

(** The fields of a request as the endpoint reads them. *)
Definition text_of (data : app.json_body) : str := strip (default [] (app.body_text data)).
Definition voice_of (data : app.json_body) : str := default (py "Joanna") (app.body_voice data).
Definition engine_of (data : app.json_body) : str := default (py "neural") (app.body_engine data).
Definition use_ssml_of (data : app.json_body) : bool := default false (app.body_useSSML data).
Definition rate_of (data : app.json_body) : str := default (py "medium") (app.body_rate data).
Definition pitch_of (data : app.json_body) : str := default (py "medium") (app.body_pitch data).

(** A request with every omitted key but [text] filled in. *)
Definition with_defaults (data : app.json_body) : app.json_body :=
  {| app.body_text := app.body_text data;
     app.body_voice := Some (voice_of data);
     app.body_engine := Some (engine_of data);
     app.body_useSSML := Some (use_ssml_of data);
     app.body_rate := Some (rate_of data);
     app.body_pitch := Some (pitch_of data) |}.

(** The call the web front end sends for a text. *)
Definition synthesis_call (text voice_id engine : str) (use_ssml : bool)
    (rate pitch : str) : synth_call :=
  {| Text := if use_ssml then create_ssml_with_prosody text rate pitch else text;
     TextType := if use_ssml then Some (py "ssml") else None;
     OutputFormat := py "mp3"; VoiceId := voice_id; Engine := engine |}.

Definition call_of (data : app.json_body) : synth_call :=
  synthesis_call (text_of data) (voice_of data) (engine_of data) (use_ssml_of data)
    (rate_of data) (pitch_of data).

(** The call the CLI sends. *)
Definition plain_call (text voice_id engine : str) : synth_call :=
  {| Text := text; TextType := None; OutputFormat := py "mp3";
     VoiceId := voice_id; Engine := engine |}.

(** The name and the path of the file the web front end writes. *)
Definition audio_filename (voice_id : str) (w : world) : str :=
  py "podcast_" ++ voice_id ++ py "_" ++ clock w ++ py ".mp3".
Definition audio_path (voice_id : str) (w : world) : str :=
  py "output/" ++ audio_filename voice_id w.

(** Worlds after one effect. *)
Definition with_call (call : synth_call) (w : world) : world :=
  {| files := files w; polly_log := polly_log w ++ [call];
     clock := clock w; stdout := stdout w |}.
Definition with_file (path : str) (content : list Byte.byte) (w : world) : world :=
  {| files := <[path := content]> (files w); polly_log := polly_log w;
     clock := clock w; stdout := stdout w |}.
Definition with_line (l : cli_line) (w : world) : world :=
  {| files := files w; polly_log := polly_log w;
     clock := clock w; stdout := stdout w ++ [l] |}.

(** What follows the provider's answer in both front ends: the file is
    opened, the audio read from the response and written. The outcome is
    the error raised or the size measured, and the world left. *)
Definition store_audio (env : platform) (answer : str + polly_response)
    (path : str) (w : world) : (str + N) * world :=
  match answer with
  | inl e => (inl e, w)
  | inr response =>
      match open_error env path with
      | Some e => (inl e, w)
      | None =>
          match AudioStream response with
          | inl e => (inl e, with_file path [] w)
          | inr audio => (inr (N.of_nat (length audio)), with_file path audio w)
          end
      end
  end.

(** The two rejections of [/api/generate], and what it answers after a
    synthesis and a write that succeeded. *)
Definition empty_text_response : app.http_response :=
  app.Response 400 (app.Failure (py "No text provided")).
Definition text_too_long_response (engine : str) : app.http_response :=
  app.Response 400 (app.Failure (too_long_error engine)).
Definition success_response (filename : str) (size : N) : app.http_response :=
  app.Response 200 (app.Success filename size (py "/download/" ++ filename)).

(** A validation rejection: the endpoint answers with status 400. *)
Definition is_rejection (r : str + app.http_response) : bool :=
  match r with
  | inr (app.Response status _) => status =? 400
  | inl _ => false
  end.

(** The endpoint lets a request through to synthesis: its call reaches
    the provider and the answer is no validation rejection. *)
Definition app_accepts (env : platform) (data : app.json_body) (w : world) : Prop :=
  polly_log (snd (app.generate_podcast env data w)) = polly_log w ++ [call_of data]
  /\ is_rejection (fst (app.generate_podcast env data w)) = false.

(** Likewise for the CLI: the call reaches the provider. *)
Definition cli_accepts (env : platform) (text output_file voice_id engine : str)
    (w : world) : Prop :=
  polly_log (snd (podcast_cli.generate_audio env text output_file voice_id engine w))
  = polly_log w ++ [plain_call text voice_id engine].

(** The CLI turns the text down: it prints the warning after the header
    lines and does nothing else. *)
Definition cli_rejects (env : platform) (text output_file voice_id engine : str)
    (w : world) : Prop :=
  podcast_cli.generate_audio env text output_file voice_id engine w
  = (inr tt, with_line (TooLongWarning (len text) (engine_limit engine))
               (with_line (Generating voice_id engine (len text)) w)).

(** A request with its text replaced. *)
Definition with_text (t : str) (data : app.json_body) : app.json_body :=
  {| app.body_text := Some t;
     app.body_voice := app.body_voice data;
     app.body_engine := app.body_engine data;
     app.body_useSSML := app.body_useSSML data;
     app.body_rate := app.body_rate data;
     app.body_pitch := app.body_pitch data |}.

(** A request that carries a text and nothing else. *)
Definition text_only (t : str) : app.json_body :=
  {| app.body_text := Some t; app.body_voice := None; app.body_engine := None;
     app.body_useSSML := None; app.body_rate := None; app.body_pitch := None |}.

(** The request of the end-to-end scenario. *)
Definition hello_request : app.json_body :=
  {| app.body_text := Some (py "Hello world.");
     app.body_voice := Some (py "Joanna");
     app.body_engine := Some (py "neural");
     app.body_useSSML := Some true;
     app.body_rate := None;
     app.body_pitch := None |}.

(** A provider that answers every call with the same audio, on a system
    where every write succeeds; and a world where nothing has happened
    yet. *)
Definition obliging (audio : list Byte.byte) : platform :=
  {| synthesize_speech := fun _ => inr {| AudioStream := inr audio |};
     open_error := fun _ => None;
     mkdir_error := fun _ => None |}.

Definition fresh_world : world :=
  {| files := ∅; polly_log := []; clock := py "20240131_093000"; stdout := [] |}.

(** The markup of the end-to-end scenario: what the specification
    expects, and what the endpoint sends. *)
Definition claimed_hello_markup : str :=
  py "<speak><prosody rate=" ++ dq :: py "medium" ++ dq :: py " pitch=" ++ dq
    :: py "medium" ++ dq :: py ">Hello world.<break time=" ++ dq :: py "500ms" ++ dq
    :: py "/> </prosody></speak>".

Definition hello_markup : str :=
  py "<speak><prosody rate=" ++ dq :: py "medium" ++ dq :: py " pitch=" ++ dq
    :: py "medium" ++ dq :: py ">Hello world.</prosody></speak>".

Definition hello_call : synth_call :=
  {| Text := hello_markup; TextType := Some (py "ssml"); OutputFormat := py "mp3";
     VoiceId := py "Joanna"; Engine := py "neural" |}.

(** Occurrences of the letter y, which no pause marker holds and no
    substitution removes. *)
Definition count_y (s : str) : nat := count_occ N.eq_dec s 121.

(** ** Vocabulary of the further properties *)

(** The items of a list without repetition, in the order they first appear. *)
Fixpoint first_seen (seen l : list str) : list str :=
  match l with
  | [] => []
  | x :: rest =>
      if bool_decide (x ∈ seen) then first_seen seen rest
      else x :: first_seen (seen ++ [x]) rest
  end.

(** The voices of a language, in the order given. *)
Definition of_language (lang : str) (Voices : list polly_voice) : list polly_voice :=
  filter (fun voice => LanguageCode voice = lang) Voices.

(** Whether [PodcastCLI.generate_audio] gets as far as the provider: the
    output directory is there and the text is within the limit. *)
Definition cli_sends (env : platform) (text output_file engine : str) : bool :=
  match mkdir_error env output_file with
  | Some _ => false
  | None => negb (engine_limit engine <? len text)
  end.

(** The engines a voice supports. *)
Definition supported_engines (voice : polly_voice) : list str :=
  default [] (SupportedEngines voice).

(** All the voices of a catalog, in the order of the dict and of its lists. *)
Definition all_voices_of (voices : list (str * list polly_voice)) : list polly_voice :=
  concat (dict_values voices).

(** A line that ends the text of [text_input_mode]. *)
Definition says_end (upper : str -> str) (line : str) : Prop :=
  upper (strip line) = py "END".

(** For the examples: [int] on plain decimal numerals and [upper] on ASCII
    text, where the builtins agree with them. *)
Definition ascii_int (s : str) : option Z :=
  if bool_decide (s <> []) && forallb (fun c => (48 <=? c) && (c <=? 57)) s
  then Some (fold_left (fun acc c => (10 * acc + Z.of_N (c - 48))%Z) s 0%Z)
  else None.

Definition ascii_upper (s : str) : str :=
  map (fun c => if (97 <=? c) && (c <=? 122) then c - 32 else c) s.

(** For the examples: a provider with three voices. *)
Definition joanna : polly_voice :=
  {| Id := py "Joanna"; Name := py "Joanna"; Gender := py "Female";
     LanguageCode := py "en-US"; LanguageName := py "US English";
     SupportedEngines := Some [py "neural"; py "standard"] |}.

Definition hans : polly_voice :=
  {| Id := py "Hans"; Name := py "Hans"; Gender := py "Male";
     LanguageCode := py "de-DE"; LanguageName := py "German";
     SupportedEngines := Some [py "standard"] |}.

Definition matthew : polly_voice :=
  {| Id := py "Matthew"; Name := py "Matthew"; Gender := py "Male";
     LanguageCode := py "en-US"; LanguageName := py "US English";
     SupportedEngines := Some [py "neural"] |}.

Definition sample_catalog : list (str * list polly_voice) :=
  fst (podcast_cli.load_voices (inr [joanna; hans; matthew])).

(** A console on the fresh world with the given lines to come. *)
Definition typing (lines : list str) : console :=
  {| inner := fresh_world; stdin := lines; screen := [] |}.

(** The output file [text_input_mode] makes of the answer to its last
    question. *)
Definition text_mode_output_file (answer : str) : str :=
  let output_file := strip answer in
  let output_file :=
    if bool_decide (output_file = []) then py "output/podcast.mp3" else output_file in
  if endswith output_file (py ".mp3") then output_file else output_file ++ py ".mp3".

(** A console after a read, with more on its screen. *)
Definition shown (lines : list menu_line) (rest : list str) (c : console) : console :=
  {| inner := inner c; stdin := rest; screen := screen c ++ lines |}.




(** For the examples: a provider that raises, and one whose audio stream
    cannot be read. *)
Definition refusing (e : str) : platform :=
  {| synthesize_speech := fun _ => inl e;
     open_error := fun _ => None;
     mkdir_error := fun _ => None |}.

Definition broken_stream (e : str) : platform :=
  {| synthesize_speech := fun _ => inr {| AudioStream := inl e |};
     open_error := fun _ => None;
     mkdir_error := fun _ => None |}.

(** Whether some sentence-terminal mark or comma of the text is followed
    by whitespace. *)
Fixpoint has_pause_site (T : str) : bool :=
  match T with
  | [] => false
  | c :: rest =>
      ((is_sentence_end c || is_comma c) && starts_with_space rest) || has_pause_site rest
  end.

(** The console after a line printed. *)
Definition saying (l : menu_line) (c : console) : console :=
  {| inner := inner c; stdin := stdin c; screen := screen c ++ [l] |}.


(** For the examples: a console on a world that holds one file, the text
    of a file of ASCII bytes without carriage returns, where reading it
    as utf-8 gives the bytes' own codes, and the stem of a file name
    without directory that has one dot, inside it. *)
Definition reading (path : str) (content : list Byte.byte) (lines : list str) : console :=
  {| inner := with_file path content fresh_world; stdin := lines; screen := [] |}.

Definition ascii_decode (content : list Byte.byte) : exn + str :=
  if forallb (fun b => (Byte.to_N b <? 128) && negb (Byte.to_N b =? 13)) content
  then inr (map Byte.to_N content)
  else inl (ValueError (py "'utf-8' codec can't decode byte")).

Fixpoint plain_stem (name : str) : str :=
  match name with
  | [] => []
  | c :: rest => if c =? 46 then [] else c :: plain_stem rest
  end.
(** * Properties *)

(** ** Strings and whitespace *)

Lemma drop_while_length f s : (length (drop_while f s) <= length s)%nat.
Proof.
  induction s as [|c rest IH]; simpl; [lia|].
  destruct (f c); simpl; lia.
Qed.

(** Induction along the recursive calls of [re_sub_pause]. *)
Lemma str_scan_ind (P : str -> Prop) :
  P [] ->
  (forall c rest, P rest -> P (drop_while isspace rest) -> P (c :: rest)) ->
  forall s, P s.
Proof.
  intros Hnil Hcons s.
  remember (length s) as n eqn:Hn.
  revert s Hn. induction n as [n IH] using lt_wf_ind. intros s Hn.
  destruct s as [|c rest]; [exact Hnil|].
  simpl in Hn. apply Hcons.
  - apply (IH (length rest)); [lia | reflexivity].
  - pose proof (drop_while_length isspace rest).
    apply (IH (length (drop_while isspace rest))); [lia | reflexivity].
Qed.

Lemma drop_while_head_false f s :
  match drop_while f s with
  | [] => True
  | c :: _ => f c = false
  end.
Proof.
  induction s as [|c rest IH]; simpl; [exact I|].
  destruct (f c) eqn:E; [exact IH | exact E].
Qed.

Lemma starts_with_space_drop_while s : starts_with_space (drop_while isspace s) = false.
Proof.
  pose proof (drop_while_head_false isspace s) as H.
  destruct (drop_while isspace s); [reflexivity | exact H].
Qed.

Lemma drop_while_all f s : forallb f s = true -> drop_while f s = [].
Proof.
  induction s as [|c rest IH]; simpl; [reflexivity|].
  destruct (f c); simpl; [exact IH | discriminate].
Qed.

Lemma drop_while_app_stop f x c y :
  f c = false -> drop_while f (x ++ c :: y) = drop_while f x ++ c :: y.
Proof.
  intros Hc. induction x as [|d x IH]; simpl.
  - rewrite Hc. reflexivity.
  - destruct (f d); [exact IH | reflexivity].
Qed.

Lemma starts_with_space_app_stop x c y :
  isspace c = false -> starts_with_space (x ++ c :: y) = starts_with_space x.
Proof.
  intros Hc. destruct x as [|d x]; simpl; [exact Hc | reflexivity].
Qed.

Lemma drop_while_no_space s : starts_with_space s = false -> drop_while isspace s = s.
Proof.
  destruct s as [|c rest]; simpl; [reflexivity|]. intros ->. reflexivity.
Qed.

(** ** Stripping *)

Lemma drop_while_split f s :
  exists pre, s = pre ++ drop_while f s /\ forallb f pre = true.
Proof.
  induction s as [|c rest (pre & Hs & Hp)]; [exists []; auto|].
  simpl. destruct (f c) eqn:E.
  - exists (c :: pre). simpl. rewrite E, Hp, <- Hs. auto.
  - exists []. auto.
Qed.

Lemma rstrip_split s : exists suf, s = rstrip s ++ suf /\ forallb isspace suf = true.
Proof.
  unfold rstrip. destruct (drop_while_split isspace (rev s)) as (pre & Hs & Hp).
  exists (rev pre). split.
  - rewrite <- rev_app_distr, <- Hs, rev_involutive. reflexivity.
  - rewrite forallb_forall in *. intros x Hx. apply Hp, in_rev. exact Hx.
Qed.

Lemma strip_no_trailing_space s : starts_with_space (rev (strip s)) = false.
Proof.
  unfold strip, rstrip. rewrite rev_involutive. apply starts_with_space_drop_while.
Qed.

Lemma strip_no_leading_space s : starts_with_space (strip s) = false.
Proof.
  unfold strip. destruct (rstrip_split (lstrip s)) as (suf & Hs & _).
  pose proof (starts_with_space_drop_while s) as H. fold (lstrip s) in H.
  rewrite Hs in H. destruct (rstrip (lstrip s)); [reflexivity | exact H].
Qed.

Lemma strip_fixed s :
  starts_with_space s = false -> starts_with_space (rev s) = false -> strip s = s.
Proof.
  intros Hl Hr. unfold strip, lstrip, rstrip.
  rewrite (drop_while_no_space s Hl), (drop_while_no_space (rev s) Hr).
  apply rev_involutive.
Qed.

Lemma strip_idempotent s : strip (strip s) = strip s.
Proof.
  apply strip_fixed; [apply strip_no_leading_space | apply strip_no_trailing_space].
Qed.

Lemma strip_whitespace s : forallb isspace s = true -> strip s = [].
Proof.
  intros H. unfold strip, lstrip, rstrip. rewrite (drop_while_all _ _ H). reflexivity.
Qed.

Lemma strip_nil_whitespace s : strip s = [] -> forallb isspace s = true.
Proof.
  unfold strip. intros H.
  destruct (rstrip_split (lstrip s)) as (suf & Hs & Hsuf).
  rewrite H in Hs. simpl in Hs.
  destruct (drop_while_split isspace s) as (pre & Hpre & Hp).
  fold (lstrip s) in Hpre. rewrite Hpre, Hs, forallb_app, Hp, Hsuf. reflexivity.
Qed.

(** ** The substitution [re_sub_pause] *)

Section Substitution.

Variable cls : char -> bool.
Variable brk : str.

(** The class of the pattern holds no whitespace. *)
Hypothesis cls_not_space : forall c, cls c = true -> isspace c = false.

Lemma re_sub_pause_copy c rest :
  cls c = false ->
  re_sub_pause cls brk (c :: rest) = c :: re_sub_pause cls brk rest.
Proof.
  intros Hc. rewrite re_sub_pause_equation_2, Hc. reflexivity.
Qed.

Lemma re_sub_pause_space c rest :
  isspace c = true ->
  re_sub_pause cls brk (c :: rest) = c :: re_sub_pause cls brk rest.
Proof.
  intros Hc. apply re_sub_pause_copy.
  destruct (cls c) eqn:E; [|reflexivity].
  apply cls_not_space in E. congruence.
Qed.

Lemma re_sub_pause_head c rest :
  exists out, re_sub_pause cls brk (c :: rest) = c :: out.
Proof.
  rewrite re_sub_pause_equation_2.
  destruct (cls c && starts_with_space rest); eauto.
Qed.

Lemma starts_with_space_re_sub_pause s :
  starts_with_space (re_sub_pause cls brk s) = starts_with_space s.
Proof.
  destruct s as [|c rest]; [reflexivity|].
  destruct (re_sub_pause_head c rest) as [out ->]. reflexivity.
Qed.

(** Leading whitespace is copied, so it can be dropped before or after. *)
Lemma drop_while_re_sub_pause s :
  drop_while isspace (re_sub_pause cls brk s)
  = re_sub_pause cls brk (drop_while isspace s).
Proof.
  induction s as [|c rest IH]; [reflexivity|].
  simpl. destruct (isspace c) eqn:E.
  - rewrite re_sub_pause_space by exact E. simpl. rewrite E. exact IH.
  - destruct (re_sub_pause_head c rest) as [out ->]. simpl. rewrite E. reflexivity.
Qed.

(** A stretch without characters of the class is copied. *)
Lemma re_sub_pause_inert_prefix x y :
  forallb (fun c => negb (cls c)) x = true ->
  re_sub_pause cls brk (x ++ y) = x ++ re_sub_pause cls brk y.
Proof.
  induction x as [|c x IH]; simpl; [reflexivity|].
  intros H. apply andb_true_iff in H as [Hc Hx].
  rewrite re_sub_pause_copy by (destruct (cls c); [discriminate | reflexivity]).
  rewrite IH by exact Hx. reflexivity.
Qed.

(** No match crosses a character that is neither of the class nor
    whitespace. *)
Lemma re_sub_pause_split x c y :
  cls c = false -> isspace c = false ->
  re_sub_pause cls brk (x ++ c :: y)
  = re_sub_pause cls brk x ++ c :: re_sub_pause cls brk y.
Proof.
  intros Hc Hs. induction x as [|d x IHx IHd] using str_scan_ind.
  - simpl. rewrite re_sub_pause_copy by exact Hc. reflexivity.
  - change ((d :: x) ++ c :: y) with (d :: (x ++ c :: y)).
    rewrite !re_sub_pause_equation_2.
    rewrite starts_with_space_app_stop by exact Hs.
    rewrite drop_while_app_stop by exact Hs.
    rewrite IHx, IHd.
    destruct (cls d && starts_with_space x); simpl; [|reflexivity].
    rewrite <- app_assoc. reflexivity.
Qed.

End Substitution.

(** ** The markup builder *)

Lemma sentence_end_not_space c : is_sentence_end c = true -> isspace c = false.
Proof.
  unfold is_sentence_end. intros H.
  apply orb_true_iff in H as [H|H]; [apply orb_true_iff in H as [H|H]|];
    apply N.eqb_eq in H; subst c; reflexivity.
Qed.

Lemma comma_not_space c : is_comma c = true -> isspace c = false.
Proof.
  unfold is_comma. intros H. apply N.eqb_eq in H. subst c. reflexivity.
Qed.

Lemma sentence_end_not_comma c : is_sentence_end c = true -> is_comma c = false.
Proof.
  unfold is_sentence_end. intros H.
  apply orb_true_iff in H as [H|H]; [apply orb_true_iff in H as [H|H]|];
    apply N.eqb_eq in H; subst c; reflexivity.
Qed.

Lemma break500_marker : break500 = marker500 ++ [32].
Proof. reflexivity. Qed.

Lemma break300_marker : break300 = marker300 ++ [32].
Proof. reflexivity. Qed.

(** The two substitutions of [add_ssml_pauses], one character at a time. *)
Lemma add_ssml_pauses_cons c rest :
  add_ssml_pauses (c :: rest) =
    if is_sentence_end c && starts_with_space rest
    then c :: break500 ++ add_ssml_pauses (drop_while isspace rest)
    else if is_comma c && starts_with_space rest
    then c :: break300 ++ add_ssml_pauses (drop_while isspace rest)
    else c :: add_ssml_pauses rest.
Proof.
  unfold add_ssml_pauses.
  rewrite (re_sub_pause_equation_2 is_sentence_end).
  destruct (is_sentence_end c) eqn:Es; cbn [andb].
  - pose proof (sentence_end_not_comma c Es) as Ec.
    destruct (starts_with_space rest) eqn:Ew.
    + rewrite re_sub_pause_copy by exact Ec.
      rewrite (re_sub_pause_inert_prefix is_comma break300 break500) by reflexivity.
      reflexivity.
    + rewrite re_sub_pause_copy by exact Ec. rewrite Ec. reflexivity.
  - rewrite (re_sub_pause_equation_2 is_comma).
    rewrite starts_with_space_re_sub_pause.
    rewrite (drop_while_re_sub_pause _ _ sentence_end_not_space).
    reflexivity.
Qed.

(** The code's two passes are the one pass that replaces each run. *)
Lemma add_ssml_pauses_replacing_runs T : add_ssml_pauses T = pauses_replacing_runs T.
Proof.
  induction T as [|c rest IHr IHd] using str_scan_ind.
  - reflexivity.
  - rewrite add_ssml_pauses_cons, pauses_replacing_runs_equation_2.
    rewrite IHr, IHd, break500_marker, break300_marker.
    rewrite <- !app_assoc. reflexivity.
Qed.

Lemma add_ssml_pauses_head c rest : exists out, add_ssml_pauses (c :: rest) = c :: out.
Proof.
  rewrite add_ssml_pauses_cons.
  destruct (is_sentence_end c && starts_with_space rest); [eauto|].
  destruct (is_comma c && starts_with_space rest); eauto.
Qed.

Lemma starts_with_space_add_ssml_pauses T :
  starts_with_space (add_ssml_pauses T) = starts_with_space T.
Proof.
  destruct T as [|c rest]; [reflexivity|].
  destruct (add_ssml_pauses_head c rest) as [out ->]. reflexivity.
Qed.

Lemma add_ssml_pauses_inert_prefix x y :
  forallb (fun c => negb (is_sentence_end c) && negb (is_comma c)) x = true ->
  add_ssml_pauses (x ++ y) = x ++ add_ssml_pauses y.
Proof.
  induction x as [|c x IH]; simpl; [reflexivity|].
  intros H. apply andb_true_iff in H as [Hc Hx].
  apply andb_true_iff in Hc as [Hs Hc].
  apply negb_true_iff in Hs, Hc.
  rewrite add_ssml_pauses_cons, Hs, Hc, IH by exact Hx. reflexivity.
Qed.

Lemma add_ssml_pauses_split x c y :
  is_sentence_end c = false -> is_comma c = false -> isspace c = false ->
  add_ssml_pauses (x ++ c :: y) = add_ssml_pauses x ++ c :: add_ssml_pauses y.
Proof.
  intros Hs Hc Hw. unfold add_ssml_pauses.
  rewrite (re_sub_pause_split is_sentence_end) by assumption.
  rewrite (re_sub_pause_split is_comma) by assumption.
  reflexivity.
Qed.

(** Pauses are inserted once: the marks of the output are no longer
    followed by whitespace. *)
Lemma add_ssml_pauses_idempotent T : add_ssml_pauses (add_ssml_pauses T) = add_ssml_pauses T.
Proof.
  induction T as [|c rest IHr IHd] using str_scan_ind.
  - reflexivity.
  - rewrite (add_ssml_pauses_cons c rest).
    destruct (is_sentence_end c && starts_with_space rest) eqn:E1;
      [|destruct (is_comma c && starts_with_space rest) eqn:E2].
    + rewrite add_ssml_pauses_cons. simpl starts_with_space.
      rewrite !andb_false_r.
      rewrite (add_ssml_pauses_inert_prefix break500) by reflexivity.
      rewrite IHd. reflexivity.
    + rewrite add_ssml_pauses_cons. simpl starts_with_space.
      rewrite !andb_false_r.
      rewrite (add_ssml_pauses_inert_prefix break300) by reflexivity.
      rewrite IHd. reflexivity.
    + rewrite add_ssml_pauses_cons.
      rewrite starts_with_space_add_ssml_pauses, E1, E2, IHr. reflexivity.
Qed.

Lemma create_ssml_with_prosody_wrapped text rate pitch :
  create_ssml_with_prosody text rate pitch = wrapped rate pitch (add_ssml_pauses text).
Proof.
  unfold create_ssml_with_prosody, ssml_wrapper, wrapped, prosody_open.
  cbn [app]. repeat (rewrite <- ?app_assoc; cbn [app]). reflexivity.
Qed.

Lemma count_y_app x y : count_y (x ++ y) = (count_y x + count_y y)%nat.
Proof. apply count_occ_app. Qed.

Lemma count_y_drop_while s : count_y (drop_while isspace s) = count_y s.
Proof.
  induction s as [|c rest IH]; [reflexivity|].
  simpl. destruct (isspace c) eqn:E; [|reflexivity].
  rewrite IH. unfold count_y. simpl.
  destruct (N.eq_dec c 121) as [->|_]; [discriminate E | reflexivity].
Qed.

Lemma count_y_cons c s : count_y (c :: s) = (count_y [c] + count_y s)%nat.
Proof. apply (count_y_app [c] s). Qed.

Lemma count_y_add_ssml_pauses T : count_y (add_ssml_pauses T) = count_y T.
Proof.
  induction T as [|c rest IHr IHd] using str_scan_ind; [reflexivity|].
  rewrite add_ssml_pauses_cons, (count_y_cons c rest).
  destruct (is_sentence_end c && starts_with_space rest);
    [|destruct (is_comma c && starts_with_space rest)].
  - rewrite (count_y_cons c), count_y_app, IHd, count_y_drop_while. reflexivity.
  - rewrite (count_y_cons c), count_y_app, IHd, count_y_drop_while. reflexivity.
  - rewrite (count_y_cons c), IHr. reflexivity.
Qed.

Lemma count_y_wrapped rate pitch content :
  count_y (wrapped rate pitch content)
  = (2 + count_y rate + count_y pitch + count_y content)%nat.
Proof.
  unfold wrapped, prosody_open.
  repeat first [ rewrite count_y_app
               | match goal with
                 | |- context [count_y (dq :: ?x ++ ?y)] =>
                     rewrite (count_y_cons dq (x ++ y))
                 end ].
  change (count_y (dq :: py ">")) with 0%nat.
  change (count_y (py "<speak>")) with 0%nat.
  change (count_y (py "<prosody rate=")) with 1%nat.
  change (count_y (py " pitch=")) with 0%nat.
  change (count_y [dq]) with 0%nat.
  change (count_y (py "</prosody>")) with 1%nat.
  change (count_y (py "</speak>")) with 0%nat.
  lia.
Qed.

(** Pause insertion goes through the wrapping: into the content, and into
    the two attribute values. *)
Lemma add_ssml_pauses_wrapped rate pitch content :
  add_ssml_pauses (wrapped rate pitch content)
  = wrapped (add_ssml_pauses rate) (add_ssml_pauses pitch) (add_ssml_pauses content).
Proof.
  assert (Hshape : forall r p X,
    wrapped r p X
    = py "<speak><prosody rate=" ++ dq ::
        (r ++ dq :: (py " pitch=" ++ dq :: (p ++ dq :: ([] ++ 62 ::
           (X ++ 60 :: py "/prosody></speak>")))))).
  { intros r p X. unfold wrapped, prosody_open.
    repeat (rewrite <- ?app_assoc; cbn [app py map list_ascii_of_string]).
    reflexivity. }
  rewrite !Hshape.
  rewrite (add_ssml_pauses_split (py "<speak><prosody rate=") dq) by reflexivity.
  rewrite (add_ssml_pauses_split rate dq) by reflexivity.
  rewrite (add_ssml_pauses_split (py " pitch=") dq) by reflexivity.
  rewrite (add_ssml_pauses_split pitch dq) by reflexivity.
  rewrite (add_ssml_pauses_split [] 62) by reflexivity.
  rewrite (add_ssml_pauses_split content 60) by reflexivity.
  reflexivity.
Qed.

Lemma pauses_inserted_space c rest :
  isspace c = true -> pauses_inserted (c :: rest) = c :: pauses_inserted rest.
Proof.
  intros Hc. simpl.
  destruct (is_sentence_end c) eqn:Es;
    [apply sentence_end_not_space in Es; congruence|].
  destruct (is_comma c) eqn:Ec;
    [apply comma_not_space in Ec; congruence|].
  reflexivity.
Qed.

(** Where each run after a mark is one space, replacing the run is
    inserting the marker. *)
Lemma pauses_replacing_runs_single_spaced T :
  single_spaced T = true -> pauses_replacing_runs T = pauses_inserted T.
Proof.
  induction T as [|c rest IHr IHd] using str_scan_ind; [reflexivity|].
  intros H. cbn [single_spaced] in H. apply andb_true_iff in H as [Hc Hrest].
  rewrite pauses_replacing_runs_equation_2. cbn [pauses_inserted].
  destruct (starts_with_space rest) eqn:Ew.
  - destruct rest as [|w rest']; [discriminate Ew|].
    cbn [starts_with_space] in Ew.
    assert (Hrun : (is_sentence_end c || is_comma c) = true ->
                   drop_while isspace (w :: rest') = rest' /\ w = 32
                   /\ single_spaced rest' = true).
    { intros Hm. rewrite Hm in Hc. cbn [andb] in Hc.
      apply andb_true_iff in Hc as [Hw Hn].
      apply N.eqb_eq in Hw. apply negb_true_iff in Hn.
      cbn [single_spaced] in Hrest. apply andb_true_iff in Hrest as [_ Hrest].
      cbn [drop_while]. rewrite Ew, (drop_while_no_space _ Hn). auto. }
    rewrite !andb_true_r.
    destruct (is_sentence_end c) eqn:Es.
    + destruct Hrun as (Hd & -> & Hs); [reflexivity|].
      rewrite Hd in *. rewrite pauses_inserted_space by reflexivity.
      rewrite IHd by exact Hs. reflexivity.
    + destruct (is_comma c) eqn:Ec.
      * destruct Hrun as (Hd & -> & Hs); [reflexivity|].
        rewrite Hd in *. rewrite pauses_inserted_space by reflexivity.
        rewrite IHd by exact Hs. reflexivity.
      * rewrite IHr by exact Hrest. reflexivity.
  - rewrite !andb_false_r. rewrite IHr by exact Hrest. reflexivity.
Qed.

(** ** The two front ends, case by case *)

Section FrontEnds.

Variable env : platform.

Lemma store_audio_log answer path w :
  polly_log (snd (store_audio env answer path w)) = polly_log w.
Proof.
  unfold store_audio. destruct answer as [e|response]; [reflexivity|].
  destruct (open_error env path); [reflexivity|].
  destruct (AudioStream response); reflexivity.
Qed.

Lemma store_audio_ok response audio path w :
  AudioStream response = inr audio ->
  open_error env path = None ->
  store_audio env (inr response) path w
  = (inr (N.of_nat (length audio)), with_file path audio w).
Proof.
  intros Hr Ho. unfold store_audio. rewrite Ho, Hr. reflexivity.
Qed.

(** Opening, reading, writing and measuring, as one step. *)
Lemma open_read_write_getsize response path w :
  (open_wb env path;; audio ← read (AudioStream response);
   write path audio;; getsize path) w
  = store_audio env (inr response) path w.
Proof.
  unfold store_audio, mbind, io_bind, open_wb, read, write, getsize, with_file.
  destruct (open_error env path) as [e|]; [reflexivity|].
  destruct (AudioStream response) as [e|audio]; [reflexivity|].
  cbn [files polly_log clock stdout].
  rewrite lookup_insert_eq, insert_insert_eq. reflexivity.
Qed.

(** [PodcastGenerator.generate_audio]: the call is sent; the result
    depends on the provider's answer and on the write. *)
Lemma app_generate_audio_cases text voice_id engine use_ssml rate pitch w :
  app.generate_audio env text voice_id engine use_ssml rate pitch w =
    let call := synthesis_call text voice_id engine use_ssml rate pitch in
    match store_audio env (synthesize_speech env call) (audio_path voice_id w)
            (with_call call w) with
    | (inl e, w') => (inr (app.AudioFailed e), w')
    | (inr size, w') =>
        (inr (app.AudioOk (audio_filename voice_id w) (audio_path voice_id w) size), w')
    end.
Proof.
  assert (Hsteps : forall response (k : N -> io app.audio_result) w1,
    (open_wb env (audio_path voice_id w);;
     audio ← read (AudioStream response);
     write (audio_path voice_id w) audio;;
     file_size ← getsize (audio_path voice_id w); k file_size) w1
    = match store_audio env (inr response) (audio_path voice_id w) w1 with
      | (inl e, w') => (inl e, w')
      | (inr size, w') => k size w'
      end).
  { intros response k w1. rewrite <- open_read_write_getsize.
    unfold mbind, io_bind.
    destruct (open_wb env _ w1) as [[e|[]] w2]; [reflexivity|].
    destruct (read _ w2) as [[e|audio] w3]; [reflexivity|].
    destruct (write _ audio w3) as [[e|[]] w4]; [reflexivity|].
    destruct (getsize _ w4) as [[e|size] w5]; reflexivity. }
  unfold app.generate_audio, try_except.
  unfold mbind at 1, io_bind at 1, now_strftime. cbn zeta.
  change (path_join OUTPUT_FOLDER (py "podcast_" ++ voice_id ++ py "_" ++ clock w ++ py ".mp3"))
    with (audio_path voice_id w).
  change (py "podcast_" ++ voice_id ++ py "_" ++ clock w ++ py ".mp3")
    with (audio_filename voice_id w).
  unfold mbind at 1, io_bind at 1.
  assert (Hcall : (if use_ssml
                   then polly env {| Text := create_ssml_with_prosody text rate pitch;
                                     TextType := Some (py "ssml");
                                     OutputFormat := py "mp3"; VoiceId := voice_id;
                                     Engine := engine |}
                   else polly env {| Text := text; TextType := None;
                                     OutputFormat := py "mp3"; VoiceId := voice_id;
                                     Engine := engine |}) w
                  = (synthesize_speech env
                       (synthesis_call text voice_id engine use_ssml rate pitch),
                     with_call (synthesis_call text voice_id engine use_ssml rate pitch) w))
    by (destruct use_ssml; reflexivity).
  rewrite Hcall.
  destruct (synthesize_speech env _) as [e|response]; [reflexivity|].
  rewrite Hsteps.
  destruct (store_audio env (inr response) _ _) as [[e|size] w']; reflexivity.
Qed.

(** The endpoint: the two rejections, then synthesis. *)
Lemma generate_podcast_cases data w :
  app.generate_podcast env data w =
    if bool_decide (text_of data = []) then (inr empty_text_response, w)
    else if engine_limit (engine_of data) <? len (text_of data)
    then (inr (text_too_long_response (engine_of data)), w)
    else
      match store_audio env (synthesize_speech env (call_of data))
              (audio_path (voice_of data) w) (with_call (call_of data) w) with
      | (inl e, w') => (inr (app.Response 500 (app.Failure e)), w')
      | (inr size, w') =>
          (inr (success_response (audio_filename (voice_of data) w) size), w')
      end.
Proof.
  unfold app.generate_podcast, try_except.
  fold (text_of data) (voice_of data) (engine_of data) (use_ssml_of data)
    (rate_of data) (pitch_of data).
  cbn zeta. fold (engine_limit (engine_of data)).
  destruct (bool_decide (text_of data = [])); [reflexivity|].
  destruct (engine_limit (engine_of data) <? len (text_of data)); [reflexivity|].
  unfold mbind, io_bind. rewrite app_generate_audio_cases. cbn zeta.
  fold (call_of data).
  destruct (store_audio env _ _ _) as [[e|size] w']; reflexivity.
Qed.

(** [PodcastCLI.generate_audio] *)
Lemma cli_generate_audio_cases text output_file voice_id engine w :
  podcast_cli.generate_audio env text output_file voice_id engine w =
    match mkdir_error env output_file with
    | Some e => (inr tt, with_line (Errored e) w)
    | None =>
        let w1 := with_line (Generating voice_id engine (len text)) w in
        if engine_limit engine <? len text
        then (inr tt, with_line (TooLongWarning (len text) (engine_limit engine)) w1)
        else
          let call := plain_call text voice_id engine in
          match store_audio env (synthesize_speech env call) output_file
                  (with_call call w1) with
          | (inl e, w') => (inr tt, with_line (Errored e) w')
          | (inr size, w') => (inr tt, with_line (Succeeded output_file size) w')
          end
    end.
Proof.
  unfold podcast_cli.generate_audio, try_except.
  unfold mbind at 1, io_bind at 1, mkdir_parent.
  destruct (mkdir_error env output_file) as [e|]; [reflexivity|].
  cbn zeta. fold (engine_limit engine).
  unfold mbind at 1, io_bind at 1. unfold print at 1. cbn beta iota.
  fold (with_line (Generating voice_id engine (len text)) w).
  destruct (engine_limit engine <? len text); [reflexivity|].
  unfold mbind at 1, io_bind at 1, polly. fold (plain_call text voice_id engine).
  fold (with_call (plain_call text voice_id engine)
          (with_line (Generating voice_id engine (len text)) w)).
  destruct (synthesize_speech env _) as [e|response]; [reflexivity|].
  rewrite <- open_read_write_getsize.
  unfold mbind, io_bind.
  destruct (open_wb env _ _) as [[e|[]] w2]; [reflexivity|].
  destruct (read _ w2) as [[e|audio] w3]; [reflexivity|].
  destruct (write _ audio w3) as [[e|[]] w4]; [reflexivity|].
  destruct (getsize _ w4) as [[e|size] w5]; reflexivity.
Qed.

End FrontEnds.

(** ** Validation *)

Lemma engine_limit_other engine : engine <> py "neural" -> engine_limit engine = 6000.
Proof.
  intros H. unfold engine_limit. rewrite bool_decide_eq_false_2 by exact H. reflexivity.
Qed.

Section Validation.

Variable env : platform.

Lemma app_rejects_empty data w :
  text_of data = [] ->
  app.generate_podcast env data w = (inr empty_text_response, w).
Proof.
  intros H. rewrite generate_podcast_cases.
  rewrite bool_decide_eq_true_2 by exact H. reflexivity.
Qed.

Lemma app_rejects_beyond_limit data w :
  engine_limit (engine_of data) < len (text_of data) ->
  app.generate_podcast env data w
  = (inr (text_too_long_response (engine_of data)), w).
Proof.
  intros H. rewrite generate_podcast_cases.
  rewrite bool_decide_eq_false_2
    by (intros E; rewrite E in H; unfold len in H; simpl in H; lia).
  apply N.ltb_lt in H. rewrite H. reflexivity.
Qed.

Lemma app_accepts_within_limit data w :
  text_of data <> [] ->
  len (text_of data) <= engine_limit (engine_of data) ->
  app_accepts env data w.
Proof.
  intros Hne Hle. unfold app_accepts. rewrite generate_podcast_cases.
  rewrite bool_decide_eq_false_2 by exact Hne.
  apply N.ltb_ge in Hle. rewrite Hle.
  pose proof (store_audio_log env (synthesize_speech env (call_of data))
                (audio_path (voice_of data) w) (with_call (call_of data) w)) as Hlog.
  destruct (store_audio env _ _ _) as [[e|size] w']; split; solve [exact Hlog | reflexivity].
Qed.

(** The endpoint answers 400 for an empty text or a text over the
    limit, and for nothing else. *)
Lemma app_rejection_iff data w :
  is_rejection (fst (app.generate_podcast env data w)) = true
  <-> text_of data = [] \/ engine_limit (engine_of data) < len (text_of data).
Proof.
  split.
  - intros H. destruct (decide (text_of data = [])) as [|Hne]; [left; assumption|].
    right. apply N.lt_nge. intros Hle.
    destruct (app_accepts_within_limit data w Hne Hle) as [_ Hacc]. congruence.
  - intros [H|H].
    + rewrite app_rejects_empty by exact H. reflexivity.
    + rewrite app_rejects_beyond_limit by exact H. reflexivity.
Qed.

Lemma cli_rejects_beyond_limit text output_file voice_id engine w :
  mkdir_error env output_file = None ->
  engine_limit engine < len text ->
  cli_rejects env text output_file voice_id engine w.
Proof.
  intros Hm H. unfold cli_rejects. rewrite cli_generate_audio_cases, Hm. cbn zeta.
  apply N.ltb_lt in H. rewrite H. reflexivity.
Qed.

Lemma cli_accepts_within_limit text output_file voice_id engine w :
  mkdir_error env output_file = None ->
  len text <= engine_limit engine ->
  cli_accepts env text output_file voice_id engine w.
Proof.
  intros Hm H. unfold cli_accepts. rewrite cli_generate_audio_cases, Hm. cbn zeta.
  apply N.ltb_ge in H. rewrite H.
  pose proof (store_audio_log env (synthesize_speech env (plain_call text voice_id engine))
                output_file
                (with_call (plain_call text voice_id engine)
                   (with_line (Generating voice_id engine (len text)) w))) as Hlog.
  destruct (store_audio env _ _ _) as [[e|size] w']; exact Hlog.
Qed.

(** Beyond the limit the CLI sends nothing and writes nothing, whatever
    the outcome of creating the output directory. *)
Lemma cli_beyond_limit_quiet text output_file voice_id engine w :
  engine_limit engine < len text ->
  polly_log (snd (podcast_cli.generate_audio env text output_file voice_id engine w))
    = polly_log w
  /\ files (snd (podcast_cli.generate_audio env text output_file voice_id engine w))
    = files w.
Proof.
  intros H. rewrite cli_generate_audio_cases.
  destruct (mkdir_error env output_file); [split; reflexivity|].
  cbn zeta. apply N.ltb_lt in H. rewrite H. split; reflexivity.
Qed.

End Validation.

(** ** The model on sample inputs *)

(** The default sample text of the CLI, through pause insertion. *)
Example add_ssml_pauses_sample :
  add_ssml_pauses
    (py "Hello, this is a sample of my voice. How do you like the way I sound?")
  = py "Hello," ++ break300 ++ py "this is a sample of my voice." ++ break500
      ++ py "How do you like the way I sound?".
Proof. reflexivity. Qed.

(** A run of several whitespace characters gives one marker and one space. *)
Example add_ssml_pauses_run :
  add_ssml_pauses (py "Stop!" ++ [32; 10; 10; 9] ++ py "Go,  now")
  = py "Stop!" ++ break500 ++ py "Go," ++ break300 ++ py "now".
Proof. reflexivity. Qed.

(** Marks that no whitespace follows are left alone. *)
Example add_ssml_pauses_no_space :
  add_ssml_pauses (py "v1.2,3 ok?") = py "v1.2,3 ok?".
Proof. reflexivity. Qed.

(** The builder alone, on "Hello world. " with the space after the full
    stop, gives the markup with a pause; the endpoint strips that space
    before it calls the builder. *)
Example builder_on_trailing_space :
  create_ssml_with_prosody (py "Hello world. ") (py "medium") (py "medium")
  = claimed_hello_markup.
Proof. reflexivity. Qed.

Example endpoint_on_trailing_space :
  call_of (with_text (py "Hello world. ") hello_request) = hello_call.
Proof. reflexivity. Qed.

Example strip_sample : strip ([9; 32] ++ py "a  b" ++ [160; 10]) = py "a  b".
Proof. reflexivity. Qed.

Example too_long_error_sample :
  too_long_error (py "standard")
  = py "Text too long. Maximum 6000 characters for standard engine.".
Proof. reflexivity. Qed.

(** * The claims *)

(** ** Claims about the markup builder *)

(** C2 (as amended): for every text, rate and pitch the builder's output is
    the root element around a prosody directive with that rate and pitch,
    whose content is the text in which every sentence-terminal mark that is
    followed by whitespace is followed by one 500ms marker and a single
    space in place of the whole run of whitespace, every comma followed by
    whitespace likewise with one 300ms marker, and nothing else is changed;
    where each such run is a single space, the content is the text with
    the markers inserted. *)
Theorem markup_builder_replaces_runs (T rate pitch : str) :
  create_ssml_with_prosody T rate pitch = wrapped rate pitch (pauses_replacing_runs T)
  /\ (single_spaced T = true ->
      create_ssml_with_prosody T rate pitch = wrapped rate pitch (pauses_inserted T)).
Proof.
  rewrite create_ssml_with_prosody_wrapped, add_ssml_pauses_replacing_runs.
  split; [reflexivity|].
  intros H. rewrite pauses_replacing_runs_single_spaced by exact H. reflexivity.
Qed.

Lemma markup_builder_replaces_runs_witness :
  single_spaced (py "Well, yes. Go on! Why? So,no.") = true
  /\ create_ssml_with_prosody (py "Well, yes. Go on! Why? So,no.") (py "slow") (py "high")
     = wrapped (py "slow") (py "high")
         (py "Well," ++ marker300 ++ py " yes." ++ marker500 ++ py " Go on!"
            ++ marker500 ++ py " Why?" ++ marker500 ++ py " So,no.").
Proof.
  split; [reflexivity|].
  rewrite (proj2 (markup_builder_replaces_runs
                    (py "Well, yes. Go on! Why? So,no.") (py "slow") (py "high")))
    by reflexivity.
  reflexivity.
Defined.

(** C2 fails as stated: after the full stop of "Hi.", a tab and a newline
    stand in the text; the content the builder produces holds a marker and
    one space instead, so it is not the text with markers inserted, and the
    text is not even a subsequence of it. *)
Lemma markup_builder_drops_whitespace :
  create_ssml_with_prosody (py "Hi." ++ [9; 10] ++ py "There") (py "medium") (py "medium")
    = wrapped (py "medium") (py "medium") (py "Hi." ++ marker500 ++ py " There")
  /\ pauses_inserted (py "Hi." ++ [9; 10] ++ py "There")
    = py "Hi." ++ marker500 ++ [9; 10] ++ py "There"
  /\ create_ssml_with_prosody (py "Hi." ++ [9; 10] ++ py "There") (py "medium") (py "medium")
    <> wrapped (py "medium") (py "medium") (pauses_inserted (py "Hi." ++ [9; 10] ++ py "There"))
  /\ subsequence (py "Hi." ++ [9; 10] ++ py "There") (py "Hi." ++ marker500 ++ py " There")
    = false.
Proof.
  split; [reflexivity|]. split; [reflexivity|]. split; [|reflexivity].
  intros H. vm_compute in H. discriminate H.
Qed.

(** C6: for every text, rate and pitch, the builder applied to its own
    output wraps it again: the output is the root and prosody elements
    around the first output, whose own root and prosody elements are kept
    (the attribute values of the inner element having gone through pause
    insertion, which leaves them as they are when they hold no mark
    followed by whitespace), and it differs from the first output. *)
Theorem markup_builder_nests (text rate pitch : str) :
  create_ssml_with_prosody (create_ssml_with_prosody text rate pitch) rate pitch
    = wrapped rate pitch
        (wrapped (add_ssml_pauses rate) (add_ssml_pauses pitch) (add_ssml_pauses text))
  /\ create_ssml_with_prosody (create_ssml_with_prosody text rate pitch) rate pitch
    <> create_ssml_with_prosody text rate pitch
  /\ (add_ssml_pauses rate = rate -> add_ssml_pauses pitch = pitch ->
      create_ssml_with_prosody (create_ssml_with_prosody text rate pitch) rate pitch
      = wrapped rate pitch (create_ssml_with_prosody text rate pitch)).
Proof.
  rewrite !create_ssml_with_prosody_wrapped, add_ssml_pauses_wrapped,
    add_ssml_pauses_idempotent.
  split; [reflexivity|]. split.
  - intros H. apply (f_equal count_y) in H.
    rewrite !count_y_wrapped, !count_y_add_ssml_pauses in H. lia.
  - intros -> ->. reflexivity.
Qed.

Lemma markup_builder_nests_witness :
  create_ssml_with_prosody
    (create_ssml_with_prosody (py "Hello, world. Bye") (py "medium") (py "medium"))
    (py "medium") (py "medium")
  = py "<speak>" ++ prosody_open (py "medium") (py "medium")
      ++ (py "<speak>" ++ prosody_open (py "medium") (py "medium")
            ++ (py "Hello," ++ break300 ++ py "world." ++ break500 ++ py "Bye")
            ++ py "</prosody>" ++ py "</speak>")
      ++ py "</prosody>" ++ py "</speak>".
Proof.
  rewrite (proj2 (proj2 (markup_builder_nests (py "Hello, world. Bye")
                           (py "medium") (py "medium"))))
    by reflexivity.
  reflexivity.
Defined.

(** ** Claims about the request validator *)

(** C3: with the neural engine a text of length exactly 3000 is accepted
    and a text of length 3001 is rejected as too long; with the standard
    engine a text of length up to 6000 is accepted. The web endpoint
    measures the stripped text, the CLI the text as given. *)
Theorem validator_length_limits (env : platform) (data : app.json_body)
    (text output_file voice_id : str) (w : world) :
  (engine_of data = py "neural" -> len (text_of data) = 3000 ->
   app_accepts env data w)
  /\ (engine_of data = py "neural" -> len (text_of data) = 3001 ->
      app.generate_podcast env data w = (inr (text_too_long_response (py "neural")), w))
  /\ (engine_of data = py "standard" -> text_of data <> [] ->
      len (text_of data) <= 6000 -> app_accepts env data w)
  /\ (mkdir_error env output_file = None -> len text = 3000 ->
      cli_accepts env text output_file voice_id (py "neural") w)
  /\ (mkdir_error env output_file = None -> len text = 3001 ->
      cli_rejects env text output_file voice_id (py "neural") w)
  /\ (mkdir_error env output_file = None -> len text <= 6000 ->
      cli_accepts env text output_file voice_id (py "standard") w).
Proof.
  split; [|split; [|split; [|split; [|split]]]].
  - intros He Hl. apply app_accepts_within_limit.
    + intros E. rewrite E in Hl. discriminate Hl.
    + rewrite He, Hl. reflexivity.
  - intros He Hl. rewrite <- He. apply app_rejects_beyond_limit.
    rewrite He, Hl. reflexivity.
  - intros He Hne Hl. apply app_accepts_within_limit; [exact Hne|].
    rewrite He. exact Hl.
  - intros Hm Hl. apply cli_accepts_within_limit; [exact Hm|]. rewrite Hl. discriminate.
  - intros Hm Hl. apply cli_rejects_beyond_limit; [exact Hm|]. rewrite Hl. reflexivity.
  - intros Hm Hl. apply cli_accepts_within_limit; [exact Hm|]. exact Hl.
Qed.

Lemma validator_length_limits_witness :
  app_accepts (obliging []) (text_only (repeat 97 (N.to_nat 3000))) fresh_world
  /\ app.generate_podcast (obliging []) (text_only (repeat 97 (N.to_nat 3001))) fresh_world
     = (inr (text_too_long_response (py "neural")), fresh_world)
  /\ app_accepts (obliging [])
       {| app.body_text := Some (repeat 97 (N.to_nat 6000)); app.body_voice := None;
          app.body_engine := Some (py "standard"); app.body_useSSML := None;
          app.body_rate := None; app.body_pitch := None |} fresh_world
  /\ cli_accepts (obliging []) (repeat 97 (N.to_nat 3000)) (py "output/podcast.mp3")
       (py "Joanna") (py "neural") fresh_world
  /\ cli_rejects (obliging []) (repeat 97 (N.to_nat 3001)) (py "output/podcast.mp3")
       (py "Joanna") (py "neural") fresh_world
  /\ cli_accepts (obliging []) (repeat 97 (N.to_nat 6000)) (py "output/podcast.mp3")
       (py "Joanna") (py "standard") fresh_world.
Proof.
  split; [|split; [|split; [|split; [|split]]]].
  - apply (proj1 (validator_length_limits (obliging [])
                    (text_only (repeat 97 (N.to_nat 3000))) [] [] [] fresh_world));
      [reflexivity | vm_compute; reflexivity].
  - apply (proj1 (proj2 (validator_length_limits (obliging [])
                    (text_only (repeat 97 (N.to_nat 3001))) [] [] [] fresh_world)));
      [reflexivity | vm_compute; reflexivity].
  - apply (proj1 (proj2 (proj2 (validator_length_limits (obliging []) _
                    [] [] [] fresh_world))));
      [reflexivity | vm_compute; discriminate | vm_compute; discriminate].
  - apply (proj1 (proj2 (proj2 (proj2 (validator_length_limits (obliging [])
                    (text_only []) (repeat 97 (N.to_nat 3000)) (py "output/podcast.mp3")
                    (py "Joanna") fresh_world)))));
      [reflexivity | vm_compute; reflexivity].
  - apply (proj1 (proj2 (proj2 (proj2 (proj2 (validator_length_limits (obliging [])
                    (text_only []) (repeat 97 (N.to_nat 3001)) (py "output/podcast.mp3")
                    (py "Joanna") fresh_world))))));
      [reflexivity | vm_compute; reflexivity].
  - apply (proj2 (proj2 (proj2 (proj2 (proj2 (validator_length_limits (obliging [])
                    (text_only []) (repeat 97 (N.to_nat 6000)) (py "output/podcast.mp3")
                    (py "Joanna") fresh_world))))));
      [reflexivity | vm_compute; discriminate].
Defined.

(** C4: whatever the engine and the other fields, a request whose text is
    absent, empty or made of whitespace only is rejected with "No text
    provided": the endpoint tests the stripped text for emptiness, and
    answers so for no other text. *)
Theorem empty_text_rejected (env : platform) (data : app.json_body) (w : world) :
  (forallb isspace (default [] (app.body_text data)) = true ->
   app.generate_podcast env data w = (inr empty_text_response, w))
  /\ (text_of data = [] <-> forallb isspace (default [] (app.body_text data)) = true)
  /\ (fst (app.generate_podcast env data w) = inr empty_text_response
      <-> text_of data = []).
Proof.
  split; [|split].
  - intros H. apply app_rejects_empty, strip_whitespace, H.
  - split; [apply strip_nil_whitespace | apply strip_whitespace].
  - split.
    + intros H. destruct (decide (text_of data = [])) as [|Hne]; [assumption|].
      exfalso. rewrite generate_podcast_cases in H.
      rewrite bool_decide_eq_false_2 in H by exact Hne.
      destruct (engine_limit (engine_of data) <? len (text_of data)).
      * apply (f_equal (fun r => match r with
                                 | inr (app.Response _ (app.Failure (c :: _))) => c
                                 | _ => 0
                                 end)) in H.
        discriminate H.
      * destruct (store_audio env _ _ _) as [[e|size] w']; discriminate H.
    + intros H. rewrite app_rejects_empty by exact H. reflexivity.
Qed.

Lemma empty_text_rejected_witness :
  app.generate_podcast (obliging [])
    {| app.body_text := Some (py "  " ++ [9; 10; 160; 8195]); app.body_voice := None;
       app.body_engine := Some (py "standard"); app.body_useSSML := Some true;
       app.body_rate := None; app.body_pitch := None |} fresh_world
  = (inr empty_text_response, fresh_world).
Proof.
  apply (proj1 (empty_text_rejected (obliging []) _ fresh_world)). reflexivity.
Defined.

(** C5: a request that fails validation (empty text, or text over the
    limit of its engine) never reaches the provider. The endpoint answers
    400 and leaves the world as it was, whatever the provider would have
    done; the CLI, which only checks the length, sends no call and writes
    no file. *)
Theorem rejection_without_provider (env : platform) (data : app.json_body)
    (text output_file voice_id engine : str) (w : world) :
  (text_of data = [] \/ engine_limit (engine_of data) < len (text_of data) ->
   snd (app.generate_podcast env data w) = w
   /\ is_rejection (fst (app.generate_podcast env data w)) = true
   /\ forall env', app.generate_podcast env' data w = app.generate_podcast env data w)
  /\ (engine_limit engine < len text ->
      polly_log (snd (podcast_cli.generate_audio env text output_file voice_id engine w))
        = polly_log w
      /\ files (snd (podcast_cli.generate_audio env text output_file voice_id engine w))
        = files w).
Proof.
  split.
  - intros [H|H].
    + split; [|split]; [| |intros env']; rewrite !app_rejects_empty by exact H;
        reflexivity.
    + split; [|split]; [| |intros env']; rewrite !app_rejects_beyond_limit by exact H;
        reflexivity.
  - apply cli_beyond_limit_quiet.
Qed.

Lemma rejection_without_provider_witness :
  snd (app.generate_podcast (obliging []) (text_only (repeat 97 (N.to_nat 3001)))
         fresh_world)
    = fresh_world
  /\ polly_log (snd (podcast_cli.generate_audio (obliging []) (repeat 97 (N.to_nat 6001))
                       (py "output/podcast.mp3") (py "Joanna") (py "standard")
                       fresh_world))
     = [].
Proof.
  split.
  - apply (proj1 (rejection_without_provider (obliging [])
                    (text_only (repeat 97 (N.to_nat 3001))) [] [] [] [] fresh_world)).
    right. vm_compute. reflexivity.
  - apply (proj2 (rejection_without_provider (obliging []) (text_only [])
                    (repeat 97 (N.to_nat 6001)) (py "output/podcast.mp3") (py "Joanna")
                    (py "standard") fresh_world)).
    vm_compute. reflexivity.
Defined.

(** C9: for every engine string other than "neural", recognised or not,
    the limit is 6000 characters. The endpoint rejects such a request only
    for an empty text or a text of more than 6000 characters, and lets
    every other one through; the CLI, once the output directory is there,
    likewise sends every text of at most 6000 characters and turns down
    the longer ones. *)
Theorem other_engines_get_standard_limit (env : platform) (engine : str)
    (data : app.json_body) (text output_file voice_id : str) (w : world) :
  engine <> py "neural" ->
  engine_limit engine = 6000
  /\ (engine_of data = engine ->
      (text_of data <> [] -> len (text_of data) <= 6000 -> app_accepts env data w)
      /\ (6000 < len (text_of data) ->
          app.generate_podcast env data w = (inr (text_too_long_response engine), w))
      /\ (is_rejection (fst (app.generate_podcast env data w)) = true
          <-> text_of data = [] \/ 6000 < len (text_of data)))
  /\ (mkdir_error env output_file = None ->
      (len text <= 6000 -> cli_accepts env text output_file voice_id engine w)
      /\ (6000 < len text -> cli_rejects env text output_file voice_id engine w)).
Proof.
  intros Hne. pose proof (engine_limit_other engine Hne) as Hlim.
  split; [exact Hlim|]. split.
  - intros He. rewrite <- He in Hlim. split; [|split].
    + intros Ht Hl. apply app_accepts_within_limit; [exact Ht|]. rewrite Hlim. exact Hl.
    + intros Hl. rewrite <- He. apply app_rejects_beyond_limit. rewrite Hlim. exact Hl.
    + rewrite app_rejection_iff, Hlim. reflexivity.
  - intros Hm. split.
    + intros Hl. apply cli_accepts_within_limit; [exact Hm|]. rewrite Hlim. exact Hl.
    + intros Hl. apply cli_rejects_beyond_limit; [exact Hm|]. rewrite Hlim. exact Hl.
Qed.

Lemma other_engines_get_standard_limit_witness :
  engine_limit (py "generative") = 6000
  /\ app_accepts (obliging [])
       {| app.body_text := Some (repeat 97 (N.to_nat 4500)); app.body_voice := None;
          app.body_engine := Some (py "generative"); app.body_useSSML := None;
          app.body_rate := None; app.body_pitch := None |} fresh_world
  /\ cli_accepts (obliging []) (repeat 97 (N.to_nat 4500)) (py "output/podcast.mp3")
       (py "Joanna") (py "generative") fresh_world.
Proof.
  assert (Hne : py "generative" <> py "neural") by (vm_compute; discriminate).
  split; [|split].
  - apply (proj1 (other_engines_get_standard_limit (obliging []) (py "generative")
                    (text_only []) [] [] [] fresh_world Hne)).
  - apply (proj1 (proj1 (proj2 (other_engines_get_standard_limit (obliging [])
                    (py "generative")
                    {| app.body_text := Some (repeat 97 (N.to_nat 4500));
                       app.body_voice := None;
                       app.body_engine := Some (py "generative");
                       app.body_useSSML := None;
                       app.body_rate := None; app.body_pitch := None |}
                    [] [] [] fresh_world Hne)) eq_refl));
      vm_compute; discriminate.
  - apply (proj1 (proj2 (proj2 (other_engines_get_standard_limit (obliging [])
                    (py "generative") (text_only []) (repeat 97 (N.to_nat 4500))
                    (py "output/podcast.mp3") (py "Joanna") fresh_world Hne)) eq_refl)).
    vm_compute. discriminate.
Defined.

(** C7: the endpoint treats a request with omitted keys as the request
    with voice "Joanna", engine "neural", rate "medium", pitch "medium"
    and markup mode off in their place; for a request that carries only a
    text, the call it sends is the plain-text call for voice "Joanna" and
    engine "neural", sent when the stripped text has from 1 to 3000
    characters, and with markup mode asked for but no rate and pitch the
    markup is built with rate and pitch "medium". *)
Theorem omitted_fields_get_defaults (env : platform) (data : app.json_body)
    (t : str) (w : world) :
  app.generate_podcast env data w = app.generate_podcast env (with_defaults data) w
  /\ (strip t <> [] -> len (strip t) <= 3000 ->
      polly_log (snd (app.generate_podcast env (text_only t) w))
      = polly_log w ++ [{| Text := strip t; TextType := None; OutputFormat := py "mp3";
                           VoiceId := py "Joanna"; Engine := py "neural" |}])
  /\ (3000 < len (strip t) ->
      app.generate_podcast env (text_only t) w
      = (inr (text_too_long_response (py "neural")), w))
  /\ with_defaults (text_only t)
     = {| app.body_text := Some t;
          app.body_voice := Some (py "Joanna");
          app.body_engine := Some (py "neural");
          app.body_useSSML := Some false;
          app.body_rate := Some (py "medium");
          app.body_pitch := Some (py "medium") |}
  /\ call_of (text_only t)
     = {| Text := strip t; TextType := None; OutputFormat := py "mp3";
          VoiceId := py "Joanna"; Engine := py "neural" |}
  /\ call_of {| app.body_text := Some t; app.body_voice := None;
                app.body_engine := None; app.body_useSSML := Some true;
                app.body_rate := None; app.body_pitch := None |}
     = {| Text := create_ssml_with_prosody (strip t) (py "medium") (py "medium");
          TextType := Some (py "ssml"); OutputFormat := py "mp3";
          VoiceId := py "Joanna"; Engine := py "neural" |}.
Proof.
  split; [reflexivity|]. split; [|split; [|split; [|split]]]; try reflexivity.
  - intros Hne Hl. apply (app_accepts_within_limit env (text_only t) w Hne Hl).
  - intros Hl. apply (app_rejects_beyond_limit env (text_only t) w Hl).
Qed.

Lemma omitted_fields_get_defaults_witness :
  polly_log (snd (app.generate_podcast (obliging []) (text_only (py " Good morning. "))
                    fresh_world))
  = [{| Text := py "Good morning."; TextType := None; OutputFormat := py "mp3";
        VoiceId := py "Joanna"; Engine := py "neural" |}].
Proof.
  apply (proj1 (proj2 (omitted_fields_get_defaults (obliging [])
                         (text_only (py " Good morning. ")) (py " Good morning. ")
                         fresh_world)));
    vm_compute; discriminate.
Defined.

(** ** Claims about the output writer and the whole endpoint *)

(** C8: when the synthesis call returns audio and the file can be written,
    the web front end reports as size the number of bytes of the audio,
    and the file at the path it returns holds exactly those bytes when
    the call returns; the CLI writes the same bytes to its output file
    and measures the same size. *)
Theorem output_writer_reports_size (env : platform)
    (text voice_id engine rate pitch output_file : str) (use_ssml : bool)
    (audio : list Byte.byte) (w : world) :
  (synthesize_speech env (synthesis_call text voice_id engine use_ssml rate pitch)
     = inr {| AudioStream := inr audio |} ->
   open_error env (audio_path voice_id w) = None ->
   fst (app.generate_audio env text voice_id engine use_ssml rate pitch w)
     = inr (app.AudioOk (audio_filename voice_id w) (audio_path voice_id w)
              (N.of_nat (length audio)))
   /\ files (snd (app.generate_audio env text voice_id engine use_ssml rate pitch w))
        !! audio_path voice_id w = Some audio)
  /\ (mkdir_error env output_file = None ->
      len text <= engine_limit engine ->
      synthesize_speech env (plain_call text voice_id engine)
        = inr {| AudioStream := inr audio |} ->
      open_error env output_file = None ->
      files (snd (podcast_cli.generate_audio env text output_file voice_id engine w))
        !! output_file = Some audio
      /\ last (stdout (snd (podcast_cli.generate_audio env text output_file voice_id
                              engine w)))
         = Some (Succeeded output_file (N.of_nat (length audio)))).
Proof.
  split.
  - intros Hs Hw. rewrite app_generate_audio_cases. cbn zeta.
    rewrite Hs, (store_audio_ok env _ audio) by (reflexivity || exact Hw).
    split; [reflexivity|]. cbn [snd with_file files]. apply lookup_insert_eq.
  - intros Hm Hl Hs Hw. rewrite cli_generate_audio_cases, Hm. cbn zeta.
    apply N.ltb_ge in Hl.
    rewrite Hl, Hs, (store_audio_ok env _ audio) by (reflexivity || exact Hw).
    cbn [snd with_line with_file files stdout].
    split; [apply lookup_insert_eq | apply last_snoc].
Qed.

Lemma output_writer_reports_size_witness :
  fst (app.generate_audio (obliging (repeat Byte.x49 (N.to_nat 1234))) (py "Hello world.")
         (py "Joanna") (py "neural") false (py "medium") (py "medium") fresh_world)
    = inr (app.AudioOk (py "podcast_Joanna_20240131_093000.mp3")
             (py "output/podcast_Joanna_20240131_093000.mp3") 1234)
  /\ files (snd (app.generate_audio (obliging (repeat Byte.x49 (N.to_nat 1234)))
                   (py "Hello world.") (py "Joanna") (py "neural") false (py "medium")
                   (py "medium") fresh_world))
       !! py "output/podcast_Joanna_20240131_093000.mp3"
     = Some (repeat Byte.x49 (N.to_nat 1234)).
Proof.
  apply (proj1 (output_writer_reports_size (obliging (repeat Byte.x49 (N.to_nat 1234)))
                  (py "Hello world.") (py "Joanna") (py "neural") (py "medium")
                  (py "medium") [] false (repeat Byte.x49 (N.to_nat 1234)) fresh_world));
    reflexivity.
Defined.

(** C10: the endpoint works on the stripped text throughout. The text it
    checks and synthesises has no whitespace at either end; the request
    is answered as the request with the stripped text in its place, so
    the emptiness check, the length check and the call all see the
    stripped text; a request whose stripped text is within the limit is
    accepted however long the surrounding whitespace; and the text of
    the call is the stripped text, or the markup built from it. *)
Theorem endpoint_strips_text (env : platform) (data : app.json_body) (w : world) :
  starts_with_space (text_of data) = false
  /\ starts_with_space (rev (text_of data)) = false
  /\ app.generate_podcast env data w
     = app.generate_podcast env (with_text (text_of data) data) w
  /\ (text_of data <> [] -> len (text_of data) <= engine_limit (engine_of data) ->
      app_accepts env data w)
  /\ Text (call_of data)
     = (if use_ssml_of data
        then create_ssml_with_prosody (text_of data) (rate_of data) (pitch_of data)
        else text_of data).
Proof.
  split; [apply strip_no_leading_space|].
  split; [apply strip_no_trailing_space|].
  split; [|split; [apply app_accepts_within_limit | reflexivity]].
  assert (Ht : text_of (with_text (text_of data) data) = text_of data)
    by apply strip_idempotent.
  rewrite !generate_podcast_cases. unfold call_of.
  change (voice_of (with_text (text_of data) data)) with (voice_of data).
  change (engine_of (with_text (text_of data) data)) with (engine_of data).
  change (use_ssml_of (with_text (text_of data) data)) with (use_ssml_of data).
  change (rate_of (with_text (text_of data) data)) with (rate_of data).
  change (pitch_of (with_text (text_of data) data)) with (pitch_of data).
  rewrite Ht. reflexivity.
Qed.

Lemma endpoint_strips_text_witness :
  len (repeat 32 5 ++ repeat 97 (N.to_nat 3000) ++ [10; 9; 32]) = 3008
  /\ text_of (text_only (repeat 32 5 ++ repeat 97 (N.to_nat 3000) ++ [10; 9; 32]))
     = repeat 97 (N.to_nat 3000)
  /\ app_accepts (obliging [])
       (text_only (repeat 32 5 ++ repeat 97 (N.to_nat 3000) ++ [10; 9; 32])) fresh_world.
Proof.
  split; [vm_compute; reflexivity|]. split; [vm_compute; reflexivity|].
  apply (proj1 (proj2 (proj2 (proj2 (endpoint_strips_text (obliging [])
           (text_only (repeat 32 5 ++ repeat 97 (N.to_nat 3000) ++ [10; 9; 32]))
           fresh_world)))));
    vm_compute; discriminate.
Defined.

(** C1 (as amended): for the request with text "Hello world.", voice
    "Joanna", engine "neural" and markup mode on, the endpoint sends the
    provider one call, whose text is the markup
    <speak><prosody rate="medium" pitch="medium">Hello world.</prosody></speak>
    (no pause marker: no whitespace follows the full stop); when the
    provider returns audio and the file is written, the answer is status
    200, success, with the file name, the size of the audio and the
    download URL "/download/" followed by the file name. *)
Theorem hello_world_scenario (env : platform) (audio : list Byte.byte) (w : world) :
  polly_log (snd (app.generate_podcast env hello_request w)) = polly_log w ++ [hello_call]
  /\ (synthesize_speech env hello_call = inr {| AudioStream := inr audio |} ->
      open_error env (audio_path (py "Joanna") w) = None ->
      fst (app.generate_podcast env hello_request w)
      = inr (app.Response 200
               (app.Success (audio_filename (py "Joanna") w) (N.of_nat (length audio))
                  (py "/download/" ++ audio_filename (py "Joanna") w)))).
Proof.
  assert (Hc : call_of hello_request = hello_call) by reflexivity.
  assert (Hacc : app_accepts env hello_request w)
    by (apply app_accepts_within_limit; vm_compute; discriminate).
  destruct Hacc as [Hlog _]. rewrite Hc in Hlog. split; [exact Hlog|].
  intros Hs Hw. rewrite generate_podcast_cases, Hc, Hs.
  change (voice_of hello_request) with (py "Joanna").
  rewrite (store_audio_ok env _ audio) by (reflexivity || exact Hw).
  reflexivity.
Qed.

Lemma hello_world_scenario_witness :
  fst (app.generate_podcast (obliging (repeat Byte.x49 (N.to_nat 1234))) hello_request
         fresh_world)
  = inr (app.Response 200
           (app.Success (py "podcast_Joanna_20240131_093000.mp3") 1234
              (py "/download/podcast_Joanna_20240131_093000.mp3"))).
Proof.
  apply (proj2 (hello_world_scenario (obliging (repeat Byte.x49 (N.to_nat 1234)))
                  (repeat Byte.x49 (N.to_nat 1234)) fresh_world));
    reflexivity.
Defined.

(** C1 fails as stated: the markup the endpoint sends for "Hello world."
    is not the one with a 500ms pause marker after the full stop. *)
Lemma hello_world_markup_has_no_pause :
  map Text (polly_log (snd (app.generate_podcast (obliging []) hello_request fresh_world)))
    = [hello_markup]
  /\ hello_markup <> claimed_hello_markup.
Proof.
  split; [reflexivity|]. intros H. vm_compute in H. discriminate H.
Qed.

(** * Further properties of the code *)

(** ** Dicts and the grouping of voices *)

Section Dicts.

Context {A : Type}.
Implicit Types (d : list (str * A)) (k : str).

Lemma dict_get_set_eq k (v : A) d : dict_get k (dict_set k v d) = Some v.
Proof.
  induction d as [|[k' v'] d IH]; simpl.
  - rewrite bool_decide_eq_true_2; reflexivity.
  - destruct (bool_decide (k' = k)) eqn:E; simpl.
    + rewrite bool_decide_eq_true_2; reflexivity.
    + rewrite E. exact IH.
Qed.

Lemma dict_get_set_ne k k' (v : A) d :
  k <> k' -> dict_get k' (dict_set k v d) = dict_get k' d.
Proof.
  intros Hne. induction d as [|[k0 v0] d IH]; simpl.
  - rewrite bool_decide_eq_false_2; [reflexivity | exact Hne].
  - destruct (bool_decide (k0 = k)) eqn:E; simpl.
    + apply bool_decide_eq_true_1 in E. subst k0.
      rewrite !bool_decide_eq_false_2 by exact Hne. reflexivity.
    + rewrite IH. reflexivity.
Qed.

Lemma dict_set_set k (v v' : A) d : dict_set k v (dict_set k v' d) = dict_set k v d.
Proof.
  induction d as [|[k0 v0] d IH]; simpl.
  - rewrite bool_decide_eq_true_2; reflexivity.
  - destruct (bool_decide (k0 = k)) eqn:E; simpl.
    + rewrite bool_decide_eq_true_2; reflexivity.
    + rewrite E, IH. reflexivity.
Qed.

Lemma dict_get_None_keys k d : dict_get k d = None <-> k ∉ dict_keys d.
Proof.
  induction d as [|[k0 v0] d IH]; simpl.
  - split; [intros _; apply not_elem_of_nil | reflexivity].
  - rewrite not_elem_of_cons. destruct (bool_decide (k0 = k)) eqn:E.
    + apply bool_decide_eq_true_1 in E. split; [discriminate | intros [H _]; congruence].
    + apply bool_decide_eq_false_1 in E. rewrite IH. split; [intros H; split; congruence | tauto].
Qed.

Lemma dict_keys_set k (v : A) d :
  dict_keys (dict_set k v d)
  = match dict_get k d with
    | Some _ => dict_keys d
    | None => dict_keys d ++ [k]
    end.
Proof.
  induction d as [|[k0 v0] d IH]; simpl; [reflexivity|].
  destruct (bool_decide (k0 = k)) eqn:E; simpl.
  - apply bool_decide_eq_true_1 in E. subst. reflexivity.
  - rewrite IH. destruct (dict_get k d); reflexivity.
Qed.

End Dicts.

Section Grouping.

Context {A : Type}.
Variable entry : polly_voice -> A.
Implicit Types (d : list (str * list A)) (Voices : list polly_voice).

Lemma dict_values_set_new k (g : list A) d :
  dict_get k d = None -> concat (dict_values (dict_set k g d)) = concat (dict_values d) ++ g.
Proof.
  induction d as [|[k0 g0] d IH]; simpl.
  - intros _. apply app_nil_r.
  - destruct (bool_decide (k0 = k)); [discriminate|]. intros H. simpl.
    rewrite IH by exact H. apply app_assoc.
Qed.

Lemma dict_values_set_append k (g : list A) (x : A) d :
  dict_get k d = Some g ->
  concat (dict_values (dict_set k (g ++ [x]) d)) ≡ₚ concat (dict_values d) ++ [x].
Proof.
  induction d as [|[k0 g0] d IH]; simpl; [discriminate|].
  destruct (bool_decide (k0 = k)); simpl.
  - intros [= ->]. rewrite <- !app_assoc. apply Permutation_app_head, Permutation_app_comm.
  - intros H. rewrite IH by exact H. rewrite app_assoc. reflexivity.
Qed.

(** The [KeyError] of the loop is never raised: one turn adds the voice to
    the list of its language, which it creates when the language is new. *)
Lemma group_step_inr d voice :
  group_step entry d voice
  = inr (dict_set (LanguageCode voice)
           (default [] (dict_get (LanguageCode voice) d) ++ [entry voice]) d).
Proof.
  unfold group_step. destruct (dict_get (LanguageCode voice) d) as [g|] eqn:E.
  - rewrite E. reflexivity.
  - rewrite dict_get_set_eq, dict_set_set. reflexivity.
Qed.

Lemma group_loop_inr d Voices : exists d', group_loop entry d Voices = inr d'.
Proof.
  revert d. induction Voices as [|voice rest IH]; intros d; simpl; [eauto|].
  rewrite group_step_inr. apply IH.
Qed.

Lemma group_loop_get d Voices d' lang :
  group_loop entry d Voices = inr d' ->
  dict_get lang d'
  = match dict_get lang d, of_language lang Voices with
    | None, [] => None
    | g, vs => Some (default [] g ++ map entry vs)
    end.
Proof.
  revert d. induction Voices as [|voice rest IH]; intros d; simpl.
  - intros [= <-]. destruct (dict_get lang d); simpl; [rewrite app_nil_r|]; reflexivity.
  - rewrite group_step_inr. intros H. rewrite (IH _ H). clear IH H.
    unfold of_language. rewrite filter_cons.
    destruct (decide (LanguageCode voice = lang)) as [->|Hne].
    + rewrite dict_get_set_eq. simpl.
      destruct (dict_get lang d) as [g|]; simpl;
        destruct (filter _ rest); simpl; rewrite <- ?app_assoc; reflexivity.
    + rewrite dict_get_set_ne by exact Hne. reflexivity.
Qed.

Lemma group_loop_keys d Voices d' :
  group_loop entry d Voices = inr d' ->
  dict_keys d' = dict_keys d ++ first_seen (dict_keys d) (map LanguageCode Voices).
Proof.
  revert d. induction Voices as [|voice rest IH]; intros d; simpl.
  - intros [= ->]. symmetry. apply app_nil_r.
  - rewrite group_step_inr. intros H. rewrite (IH _ H). clear IH H.
    rewrite dict_keys_set.
    destruct (dict_get (LanguageCode voice) d) as [g|] eqn:E.
    + rewrite bool_decide_eq_true_2; [reflexivity|].
      destruct (decide (LanguageCode voice ∈ dict_keys d)) as [|Hn]; [assumption|].
      apply dict_get_None_keys in Hn. congruence.
    + rewrite bool_decide_eq_false_2 by (apply dict_get_None_keys, E).
      rewrite <- app_assoc. reflexivity.
Qed.

Lemma group_loop_values d Voices d' :
  group_loop entry d Voices = inr d' ->
  concat (dict_values d') ≡ₚ concat (dict_values d) ++ map entry Voices.
Proof.
  revert d. induction Voices as [|voice rest IH]; intros d; simpl.
  - intros [= ->]. rewrite app_nil_r. reflexivity.
  - rewrite group_step_inr. intros H. rewrite (IH _ H). clear IH H.
    destruct (dict_get (LanguageCode voice) d) as [g|] eqn:E; simpl.
    + rewrite (dict_values_set_append _ _ _ _ E), <- app_assoc. reflexivity.
    + rewrite (dict_values_set_new _ _ _ E), <- app_assoc. reflexivity.
Qed.

End Grouping.

Lemma first_seen_NoDup seen l :
  NoDup (first_seen seen l) /\ forall x, x ∈ first_seen seen l -> x ∉ seen.
Proof.
  revert seen. induction l as [|x rest IH]; intros seen; simpl.
  - split; [constructor | intros x Hx; inversion Hx].
  - destruct (bool_decide (x ∈ seen)) eqn:E; [apply IH|].
    apply bool_decide_eq_false_1 in E.
    destruct (IH (seen ++ [x])) as [Hnd Hfresh]. split.
    + constructor; [|exact Hnd]. intros Hin. apply (Hfresh x Hin).
      apply elem_of_app. right. apply list_elem_of_singleton. reflexivity.
    + intros y Hy. apply elem_of_cons in Hy as [->|Hy]; [exact E|].
      intros Hin. apply (Hfresh y Hy). apply elem_of_app. left. exact Hin.
Qed.

(** X1: both catalogs list, under each language code, exactly the
    provider's voices of that language, in the provider's order, and
    print no error; a language without voice has no entry, so no entry
    is empty. *)
Theorem catalog_groups_by_language (Voices : list polly_voice) (lang : str) :
  dict_get lang (fst (app.get_available_voices (inr Voices)))
    = match of_language lang Voices with
      | [] => None
      | vs => Some (map app.to_info vs)
      end
  /\ dict_get lang (fst (podcast_cli.load_voices (inr Voices)))
    = match of_language lang Voices with
      | [] => None
      | vs => Some vs
      end
  /\ snd (app.get_available_voices (inr Voices)) = None
  /\ snd (podcast_cli.load_voices (inr Voices)) = None.
Proof.
  unfold app.get_available_voices, podcast_cli.load_voices.
  destruct (group_loop_inr app.to_info [] Voices) as [d1 H1].
  destruct (group_loop_inr (fun voice => voice) [] Voices) as [d2 H2].
  rewrite H1, H2. cbn [fst snd].
  rewrite (group_loop_get _ _ _ _ lang H1), (group_loop_get _ _ _ _ lang H2).
  cbn [dict_get].
  destruct (of_language lang Voices) as [|v vs]; [auto|].
  cbn [default app]. rewrite List.map_id. auto.
Qed.

(** X2: the keys of the catalog are the language codes of the provider's
    voices, each once, in the order in which they first appear; this is
    the order in which [list_voices_menu] numbers the languages. *)
Theorem catalog_languages_in_first_seen_order (Voices : list polly_voice) :
  dict_keys (fst (podcast_cli.load_voices (inr Voices)))
    = first_seen [] (map LanguageCode Voices)
  /\ dict_keys (fst (app.get_available_voices (inr Voices)))
    = first_seen [] (map LanguageCode Voices)
  /\ NoDup (dict_keys (fst (podcast_cli.load_voices (inr Voices)))).
Proof.
  unfold app.get_available_voices, podcast_cli.load_voices.
  destruct (group_loop_inr app.to_info [] Voices) as [d1 H1].
  destruct (group_loop_inr (fun voice => voice) [] Voices) as [d2 H2].
  rewrite H1, H2. cbn [fst].
  rewrite (group_loop_keys _ _ _ _ H1), (group_loop_keys _ _ _ _ H2).
  cbn [dict_keys map app]. split; [reflexivity|]. split; [reflexivity|].
  apply first_seen_NoDup.
Qed.

(** X3: grouping loses and repeats no voice: the voices of the catalog,
    taken language after language as [select_from_all_voices] numbers
    them, are a rearrangement of the provider's list. *)
Theorem catalog_keeps_every_voice (Voices : list polly_voice) :
  all_voices_of (fst (podcast_cli.load_voices (inr Voices))) ≡ₚ Voices
  /\ concat (dict_values (fst (app.get_available_voices (inr Voices))))
     ≡ₚ map app.to_info Voices.
Proof.
  unfold app.get_available_voices, podcast_cli.load_voices, all_voices_of.
  destruct (group_loop_inr app.to_info [] Voices) as [d1 H1].
  destruct (group_loop_inr (fun voice => voice) [] Voices) as [d2 H2].
  rewrite H1, H2. cbn [fst].
  rewrite (group_loop_values _ _ _ _ H1), (group_loop_values _ _ _ _ H2).
  cbn [dict_values map concat app]. rewrite List.map_id. split; reflexivity.
Qed.

(** ** What [generate_audio] does to the world *)

Section AudioEffects.

Variable env : platform.

Lemma store_audio_other_files answer path w p :
  p <> path -> files (snd (store_audio env answer path w)) !! p = files w !! p.
Proof.
  intros Hne. unfold store_audio. destruct answer as [e|response]; [reflexivity|].
  destruct (open_error env path); [reflexivity|].
  destruct (AudioStream response); cbn [snd with_file files];
    apply lookup_insert_ne; congruence.
Qed.

Lemma cli_generate_audio_returns text output_file voice_id engine w :
  fst (podcast_cli.generate_audio env text output_file voice_id engine w) = inr tt.
Proof.
  rewrite cli_generate_audio_cases.
  destruct (mkdir_error env output_file); [reflexivity|]. cbn zeta.
  destruct (engine_limit engine <? len text); [reflexivity|].
  destruct (store_audio env _ _ _) as [[e|size] w']; reflexivity.
Qed.

Lemma cli_generate_audio_log text output_file voice_id engine w :
  polly_log (snd (podcast_cli.generate_audio env text output_file voice_id engine w))
  = polly_log w ++ (if cli_sends env text output_file engine
                    then [plain_call text voice_id engine] else []).
Proof.
  rewrite cli_generate_audio_cases. unfold cli_sends.
  destruct (mkdir_error env output_file); [symmetry; apply app_nil_r|]. cbn zeta.
  destruct (engine_limit engine <? len text); [symmetry; apply app_nil_r|].
  pose proof (store_audio_log env (synthesize_speech env (plain_call text voice_id engine))
                output_file
                (with_call (plain_call text voice_id engine)
                   (with_line (Generating voice_id engine (len text)) w))) as Hlog.
  destruct (store_audio env _ _ _) as [[e|size] w']; exact Hlog.
Qed.

Lemma cli_generate_audio_other_files text output_file voice_id engine w p :
  p <> output_file ->
  files (snd (podcast_cli.generate_audio env text output_file voice_id engine w)) !! p
  = files w !! p.
Proof.
  intros Hne. rewrite cli_generate_audio_cases.
  destruct (mkdir_error env output_file); [reflexivity|]. cbn zeta.
  destruct (engine_limit engine <? len text); [reflexivity|].
  pose proof (store_audio_other_files
                (synthesize_speech env (plain_call text voice_id engine)) output_file
                (with_call (plain_call text voice_id engine)
                   (with_line (Generating voice_id engine (len text)) w)) p Hne) as Hf.
  destruct (store_audio env _ _ _) as [[e|size] w']; exact Hf.
Qed.

Lemma cli_generate_audio_clock text output_file voice_id engine w :
  clock (snd (podcast_cli.generate_audio env text output_file voice_id engine w)) = clock w.
Proof.
  rewrite cli_generate_audio_cases.
  destruct (mkdir_error env output_file); [reflexivity|]. cbn zeta.
  destruct (engine_limit engine <? len text); [reflexivity|].
  unfold store_audio.
  destruct (synthesize_speech env _) as [e|response]; [reflexivity|].
  destruct (open_error env output_file); [reflexivity|].
  destruct (AudioStream response); reflexivity.
Qed.

End AudioEffects.

(** ** The menus of the CLI *)

Section MenuCases.

Variable voices : list (str * list polly_voice).
Variable int : str -> option Z.

(** [select_engine], case by case. *)
Lemma select_engine_cases voice c :
  podcast_cli.select_engine int voice c =
    if bool_decide (py "neural" ∈ supported_engines voice)
       && bool_decide (py "standard" ∈ supported_engines voice)
    then
      match stdin c with
      | [] => (inl EOFError,
               {| inner := inner c; stdin := [];
                  screen := screen c ++ [EngineMenu; Asked AskEngine] |})
      | answer :: rest =>
          (inr (match int (if bool_decide (strip answer = []) then py "1"
                           else strip answer) with
                | Some choice =>
                    if bool_decide (choice = 1%Z) then py "neural" else py "standard"
                | None => py "neural"
                end),
           {| inner := inner c; stdin := rest;
              screen := screen c ++ [EngineMenu; Asked AskEngine] |})
      end
    else (inr (if bool_decide (py "neural" ∈ supported_engines voice)
               then py "neural" else py "standard"), c).
Proof.
  unfold podcast_cli.select_engine. fold (supported_engines voice).
  destruct (bool_decide (py "neural" ∈ supported_engines voice)); cbn [andb];
    [|reflexivity].
  destruct (bool_decide (py "standard" ∈ supported_engines voice)); [|reflexivity].
  unfold say, except_ValueError, input, podcast_cli.to_int, throw.
  unfold mbind, cli_bind, mret, cli_ret.
  cbn [inner stdin screen].
  destruct (stdin c) as [|answer rest]; [rewrite <- app_assoc; reflexivity|].
  destruct (int _) as [choice|]; cbn; rewrite <- app_assoc; reflexivity.
Qed.

(** [select_from_all_voices], case by case: the index is always within
    the list. *)
Lemma select_from_all_voices_cases c :
  podcast_cli.select_from_all_voices voices int c =
    let shown := screen c ++ [AllVoices (all_voices_of voices); Asked AskVoiceNumber] in
    match stdin c with
    | [] => (inl EOFError, {| inner := inner c; stdin := []; screen := shown |})
    | answer :: rest =>
        match int answer with
        | None => (inr None, {| inner := inner c; stdin := rest;
                                screen := shown ++ [EnterANumber] |})
        | Some choice =>
            if bool_decide (1 <= choice)%Z
               && bool_decide (choice <= Z.of_nat (length (all_voices_of voices)))%Z
            then (inr (all_voices_of voices !! Z.to_nat (choice - 1)),
                  {| inner := inner c; stdin := rest; screen := shown |})
            else (inr None, {| inner := inner c; stdin := rest;
                               screen := shown ++ [InvalidChoice] |})
        end
    end.
Proof.
  unfold podcast_cli.select_from_all_voices. fold (all_voices_of voices). cbn zeta.
  unfold mbind, cli_bind, say, except_ValueError, input, podcast_cli.to_int.
  cbn [inner stdin screen].
  destruct (stdin c) as [|answer rest]; [rewrite <- app_assoc; reflexivity|].
  destruct (int answer) as [choice|]; cbn; [|rewrite <- !app_assoc; reflexivity].
  destruct (bool_decide (1 <= choice)%Z) eqn:E1; cbn [andb];
    [|cbn; rewrite <- !app_assoc; reflexivity].
  destruct (bool_decide (choice <= Z.of_nat (length (all_voices_of voices)))%Z) eqn:E2;
    [|cbn; rewrite <- !app_assoc; reflexivity].
  apply bool_decide_eq_true_1 in E1, E2.
  unfold podcast_cli.item.
  destruct (all_voices_of voices !! Z.to_nat (choice - 1)) as [v|] eqn:El.
  - cbn. rewrite <- app_assoc. reflexivity.
  - apply lookup_ge_None in El. lia.
Qed.

Lemma find_app_first {A} (f : A -> bool) (l1 l2 : list A) :
  find f (l1 ++ l2) = match find f l1 with Some x => Some x | None => find f l2 end.
Proof.
  induction l1 as [|x l1 IH]; [reflexivity|]. simpl. destruct (f x); [reflexivity | exact IH].
Qed.

Lemma find_by_name_concat voice_name groups :
  podcast_cli.find_by_name voice_name groups
  = find (fun v => bool_decide (Name v = voice_name)) (concat groups).
Proof.
  induction groups as [|group rest IH]; [reflexivity|].
  cbn [podcast_cli.find_by_name concat]. rewrite find_app_first, IH.
  destruct (find _ group); reflexivity.
Qed.

(** [select_voice], case by case. *)
Lemma select_voice_cases c :
  podcast_cli.select_voice voices int c =
    let shown := screen c ++ [PopularVoices podcast_cli.popular; Asked AskChoice] in
    match stdin c with
    | [] => (inl EOFError, {| inner := inner c; stdin := []; screen := shown |})
    | answer :: rest =>
        match int answer with
        | None => (inr None, {| inner := inner c; stdin := rest;
                                screen := shown ++ [EnterANumber] |})
        | Some choice =>
            match podcast_cli.popular !! Z.to_nat (choice - 1) with
            | Some voice_name =>
                if bool_decide (1 <= choice)%Z
                then (inr (find (fun v => bool_decide (Name v = voice_name))
                             (all_voices_of voices)),
                      {| inner := inner c; stdin := rest; screen := shown |})
                else (inr None, {| inner := inner c; stdin := rest;
                                   screen := shown ++ [InvalidChoice] |})
            | None =>
                if bool_decide (choice = 7)%Z
                then podcast_cli.select_from_all_voices voices int
                       {| inner := inner c; stdin := rest; screen := shown |}
                else (inr None, {| inner := inner c; stdin := rest;
                                   screen := shown ++ [InvalidChoice] |})
            end
        end
    end.
Proof.
  unfold podcast_cli.select_voice. cbn zeta.
  unfold say, except_ValueError, input, podcast_cli.to_int, podcast_cli.item, throw.
  unfold mbind, cli_bind, mret, cli_ret.
  cbn [inner stdin screen].
  destruct (stdin c) as [|answer rest]; [rewrite <- app_assoc; reflexivity|].
  destruct (int answer) as [choice|]; [|cbn; rewrite <- !app_assoc; reflexivity].
  rewrite <- app_assoc. cbn [app].
  change (Z.of_nat (length podcast_cli.popular) + 1)%Z with 7%Z.
  change (Z.of_nat (length podcast_cli.popular)) with 6%Z.
  destruct (bool_decide (1 <= choice)%Z) eqn:E1; cbn [andb].
  - apply bool_decide_eq_true_1 in E1.
    destruct (bool_decide (choice <= 6)%Z) eqn:E2.
    + apply bool_decide_eq_true_1 in E2.
      destruct (podcast_cli.popular !! Z.to_nat (choice - 1)) as [name|] eqn:El.
      * rewrite find_by_name_concat. reflexivity.
      * apply lookup_ge_None in El. cbn in El. lia.
    + apply bool_decide_eq_false_1 in E2.
      assert (El : podcast_cli.popular !! Z.to_nat (choice - 1) = None)
        by (apply lookup_ge_None; cbn; lia).
      rewrite El.
      destruct (bool_decide (choice = 7)%Z).
      * rewrite select_from_all_voices_cases. cbn zeta. cbn [inner stdin screen].
        destruct rest as [|answer2 rest2]; [reflexivity|].
        destruct (int answer2) as [choice2|]; [|reflexivity].
        destruct (_ && _); reflexivity.
      * cbn. rewrite <- app_assoc. reflexivity.
  - apply bool_decide_eq_false_1 in E1.
    rewrite bool_decide_eq_false_2 by lia.
    destruct (podcast_cli.popular !! Z.to_nat (choice - 1)) as [name|];
      cbn; rewrite <- app_assoc; reflexivity.
Qed.

(** What the callers of the three selections rely on. *)
Lemma select_engine_keeps voice c :
  inner (snd (podcast_cli.select_engine int voice c)) = inner c
  /\ (forall engine, fst (podcast_cli.select_engine int voice c) = inr engine ->
       (engine = py "neural" /\ py "neural" ∈ supported_engines voice)
       \/ engine = py "standard")
  /\ (forall e, fst (podcast_cli.select_engine int voice c) = inl e -> e = EOFError).
Proof.
  rewrite select_engine_cases.
  destruct (bool_decide (py "neural" ∈ supported_engines voice)) eqn:En; cbn [andb].
  - apply bool_decide_eq_true_1 in En.
    destruct (bool_decide (py "standard" ∈ supported_engines voice)).
    + destruct (stdin c) as [|answer rest].
      * split; [reflexivity|]. split; [discriminate | intros e [= <-]; reflexivity].
      * split; [reflexivity|]. split; [|discriminate]. intros engine [= <-].
        destruct (int _) as [choice|]; [|auto].
        destruct (bool_decide (choice = 1%Z)); auto.
    + split; [reflexivity|]. split; [|discriminate]. intros engine [= <-]. auto.
  - split; [reflexivity|]. split; [|discriminate]. intros engine [= <-]. auto.
Qed.

Lemma select_from_all_voices_keeps c :
  inner (snd (podcast_cli.select_from_all_voices voices int c)) = inner c
  /\ (forall v, fst (podcast_cli.select_from_all_voices voices int c) = inr (Some v) ->
       v ∈ all_voices_of voices)
  /\ (forall e, fst (podcast_cli.select_from_all_voices voices int c) = inl e ->
       e = EOFError).
Proof.
  rewrite select_from_all_voices_cases. cbn zeta.
  destruct (stdin c) as [|answer rest].
  - split; [reflexivity|]. split; [discriminate | intros e [= <-]; reflexivity].
  - destruct (int answer) as [choice|].
    + destruct (_ && _).
      * split; [reflexivity|]. split; [|discriminate]. intros v [= Hl].
        apply list_elem_of_lookup. eauto.
      * split; [reflexivity|]. split; discriminate.
    + split; [reflexivity|]. split; discriminate.
Qed.

Lemma select_voice_keeps c :
  inner (snd (podcast_cli.select_voice voices int c)) = inner c
  /\ (forall v, fst (podcast_cli.select_voice voices int c) = inr (Some v) ->
       v ∈ all_voices_of voices)
  /\ (forall e, fst (podcast_cli.select_voice voices int c) = inl e -> e = EOFError).
Proof.
  rewrite select_voice_cases. cbn zeta.
  destruct (stdin c) as [|answer rest].
  - split; [reflexivity|]. split; [discriminate | intros e [= <-]; reflexivity].
  - destruct (int answer) as [choice|]; [|split; [reflexivity|]; split; discriminate].
    destruct (podcast_cli.popular !! Z.to_nat (choice - 1)) as [name|].
    + destruct (bool_decide (1 <= choice)%Z);
        [|split; [reflexivity|]; split; discriminate].
      split; [reflexivity|]. split; [|discriminate]. intros v [= Hf].
      apply find_some in Hf as [Hv _]. apply list_elem_of_In. exact Hv.
    + destruct (bool_decide (choice = 7)%Z);
        [|split; [reflexivity|]; split; discriminate].
      apply (select_from_all_voices_keeps
               {| inner := inner c; stdin := rest;
                  screen := screen c ++ [PopularVoices podcast_cli.popular;
                                         Asked AskChoice] |}).
Qed.

End MenuCases.

(** X4: [select_engine] answers "neural" or "standard" and nothing else,
    and "neural" only for a voice that supports it; it leaves the world
    alone and reads at most one line; the only way it fails is the end of
    the input when the voice supports both engines. *)
Theorem select_engine_answers (int : str -> option Z) (voice : polly_voice) (c : console) :
  match podcast_cli.select_engine int voice c with
  | (inr engine, c') =>
      ((engine = py "neural" /\ py "neural" ∈ supported_engines voice)
       \/ engine = py "standard")
      /\ inner c' = inner c
      /\ (stdin c' = stdin c \/ exists answer, stdin c = answer :: stdin c')
  | (inl e, c') =>
      e = EOFError /\ stdin c = [] /\ inner c' = inner c
      /\ py "neural" ∈ supported_engines voice /\ py "standard" ∈ supported_engines voice
  end.
Proof.
  rewrite select_engine_cases.
  destruct (bool_decide (py "neural" ∈ supported_engines voice)) eqn:En; cbn [andb].
  - apply bool_decide_eq_true_1 in En.
    destruct (bool_decide (py "standard" ∈ supported_engines voice)) eqn:Es.
    + apply bool_decide_eq_true_1 in Es.
      destruct (stdin c) as [|answer rest]; [auto|].
      split; [|split; [reflexivity | right; eauto]].
      destruct (int _) as [choice|]; [|auto].
      destruct (bool_decide (choice = 1%Z)); auto.
    + auto.
  - auto.
Qed.

(** X5: for a voice that supports both engines, an empty or blank answer
    selects "neural" (given that [int] reads "1" as 1), an answer that
    [int] reads as another number selects "standard", and an answer that
    is no number selects "neural" without a message. *)
Theorem select_engine_default (int : str -> option Z) (voice : polly_voice)
    (c : console) (answer : str) (rest : list str) :
  int (py "1") = Some 1%Z ->
  py "neural" ∈ supported_engines voice ->
  py "standard" ∈ supported_engines voice ->
  stdin c = answer :: rest ->
  fst (podcast_cli.select_engine int voice c)
  = inr (if bool_decide (strip answer = []) then py "neural"
         else match int (strip answer) with
              | Some choice =>
                  if bool_decide (choice = 1%Z) then py "neural" else py "standard"
              | None => py "neural"
              end)
  /\ stdin (snd (podcast_cli.select_engine int voice c)) = rest.
Proof.
  intros H1 Hn Hs Hin. rewrite select_engine_cases.
  rewrite !bool_decide_eq_true_2 by assumption. cbn [andb]. rewrite Hin.
  split; [|reflexivity]. cbn [fst].
  destruct (bool_decide (strip answer = [])); [rewrite H1|]; reflexivity.
Qed.

Lemma select_engine_default_witness :
  fst (podcast_cli.select_engine ascii_int joanna (typing [py "  "; py "x"]))
    = inr (py "neural")
  /\ fst (podcast_cli.select_engine ascii_int joanna (typing [py " 2 "])) = inr (py "standard")
  /\ fst (podcast_cli.select_engine ascii_int joanna (typing [py "two"])) = inr (py "neural").
Proof.
  split; [|split].
  - apply (proj1 (select_engine_default ascii_int joanna (typing [py "  "; py "x"])
                    (py "  ") [py "x"] eq_refl ltac:(vm_compute; set_solver)
                    ltac:(vm_compute; set_solver) eq_refl)).
  - apply (proj1 (select_engine_default ascii_int joanna (typing [py " 2 "])
                    (py " 2 ") [] eq_refl ltac:(vm_compute; set_solver)
                    ltac:(vm_compute; set_solver) eq_refl)).
  - apply (proj1 (select_engine_default ascii_int joanna (typing [py "two"])
                    (py "two") [] eq_refl ltac:(vm_compute; set_solver)
                    ltac:(vm_compute; set_solver) eq_refl)).
Defined.

(** X6: [select_from_all_voices] returns a voice only for an answer that
    [int] reads as a number from 1 to the number of voices, and then the
    voice at that place of the list it shows; any other answer gives no
    voice. The index is never out of range, the world is left alone, and
    the only way it fails is the end of the input. *)
Theorem select_from_all_voices_in_range (voices : list (str * list polly_voice))
    (int : str -> option Z) (c : console) :
  match podcast_cli.select_from_all_voices voices int c with
  | (inr (Some v), c') =>
      inner c' = inner c
      /\ exists answer choice,
           stdin c = answer :: stdin c' /\ int answer = Some choice
           /\ (1 <= choice <= Z.of_nat (length (all_voices_of voices)))%Z
           /\ all_voices_of voices !! Z.to_nat (choice - 1) = Some v
  | (inr None, c') =>
      inner c' = inner c
      /\ exists answer,
           stdin c = answer :: stdin c'
           /\ forall choice, int answer = Some choice ->
                ~ (1 <= choice <= Z.of_nat (length (all_voices_of voices)))%Z
  | (inl e, c') => e = EOFError /\ stdin c = [] /\ inner c' = inner c
  end.
Proof.
  rewrite select_from_all_voices_cases. cbn zeta.
  destruct (stdin c) as [|answer rest]; [auto|].
  destruct (int answer) as [choice|] eqn:Ei.
  - destruct (bool_decide (1 <= choice)%Z) eqn:E1; cbn [andb].
    + apply bool_decide_eq_true_1 in E1.
      destruct (bool_decide (choice <= _)%Z) eqn:E2.
      * apply bool_decide_eq_true_1 in E2.
        destruct (all_voices_of voices !! Z.to_nat (choice - 1)) as [v|] eqn:El.
        -- split; [reflexivity|]. exists answer, choice. cbn [stdin]. auto.
        -- apply lookup_ge_None in El. lia.
      * apply bool_decide_eq_false_1 in E2. split; [reflexivity|].
        exists answer. split; [reflexivity|]. intros ch Hc. assert (ch = choice) by congruence. subst ch. lia.
    + apply bool_decide_eq_false_1 in E1. split; [reflexivity|].
      exists answer. split; [reflexivity|]. intros ch Hc. assert (ch = choice) by congruence. subst ch. lia.
  - split; [reflexivity|]. exists answer. split; [reflexivity|]. congruence.
Qed.

(** X7: when the answer to [select_voice] is read as a number from 1 to
    6, the voice selected is the first voice of the catalog whose name is
    the popular name at that place; when the catalog has no voice of that
    name, no voice is selected and nothing is printed about it. Nothing
    else is read. *)
Theorem select_voice_popular (voices : list (str * list polly_voice))
    (int : str -> option Z) (c : console) (answer : str) (rest : list str)
    (choice : Z) (voice_name : str) :
  stdin c = answer :: rest ->
  int answer = Some choice ->
  (1 <= choice)%Z ->
  podcast_cli.popular !! Z.to_nat (choice - 1) = Some voice_name ->
  podcast_cli.select_voice voices int c
  = (inr (find (fun v => bool_decide (Name v = voice_name)) (all_voices_of voices)),
     {| inner := inner c; stdin := rest;
        screen := screen c ++ [PopularVoices podcast_cli.popular; Asked AskChoice] |})
  /\ (forall v, find (fun v => bool_decide (Name v = voice_name)) (all_voices_of voices)
               = Some v -> Name v = voice_name /\ v ∈ all_voices_of voices)
  /\ (find (fun v => bool_decide (Name v = voice_name)) (all_voices_of voices) = None
      <-> voice_name ∉ map Name (all_voices_of voices)).
Proof.
  intros Hin Hi H1 Hp. rewrite select_voice_cases. cbn zeta.
  rewrite Hin, Hi, Hp, bool_decide_eq_true_2 by exact H1.
  split; [reflexivity|]. split.
  - intros v Hf. apply find_some in Hf as [Hv Hn].
    apply bool_decide_eq_true_1 in Hn. split; [exact Hn|].
    apply list_elem_of_In. exact Hv.
  - split.
    + intros Hf Hm. apply list_elem_of_fmap in Hm as (v & Hn & Hv).
      apply list_elem_of_In in Hv.
      pose proof (find_none _ _ Hf v Hv) as Hb. cbn beta in Hb.
      apply bool_decide_eq_false_1 in Hb. congruence.
    + intros Hm. destruct (find _ _) as [v|] eqn:Hf; [|reflexivity].
      apply find_some in Hf as [Hv Hn]. apply bool_decide_eq_true_1 in Hn.
      exfalso. apply Hm. apply list_elem_of_fmap. exists v. split; [congruence|].
      apply list_elem_of_In. exact Hv.
Qed.

Lemma select_voice_popular_witness :
  fst (podcast_cli.select_voice sample_catalog ascii_int (typing [py "2"])) = inr (Some matthew)
  /\ fst (podcast_cli.select_voice sample_catalog ascii_int (typing [py "3"])) = inr None.
Proof.
  split.
  - rewrite (proj1 (select_voice_popular sample_catalog ascii_int (typing [py "2"])
                      (py "2") [] 2 (py "Matthew") eq_refl eq_refl ltac:(lia) eq_refl)).
    reflexivity.
  - rewrite (proj1 (select_voice_popular sample_catalog ascii_int (typing [py "3"])
                      (py "3") [] 3 (py "Amy") eq_refl eq_refl ltac:(lia) eq_refl)).
    reflexivity.
Defined.

(** X8: a voice [select_voice] returns is always a voice of the catalog,
    whichever way it was chosen; the world is left alone, and the only
    way to fail is the end of the input. With an empty catalog, as
    [load_voices] leaves it when the provider cannot be reached, no voice
    is ever returned. *)
Theorem select_voice_from_catalog (voices : list (str * list polly_voice))
    (int : str -> option Z) (c : console) :
  match podcast_cli.select_voice voices int c with
  | (inr (Some v), c') => v ∈ all_voices_of voices /\ inner c' = inner c
  | (inr None, c') => inner c' = inner c
  | (inl e, c') => e = EOFError /\ inner c' = inner c
  end.
Proof.
  rewrite select_voice_cases. cbn zeta.
  destruct (stdin c) as [|answer rest]; [auto|].
  destruct (int answer) as [choice|]; [|reflexivity].
  destruct (podcast_cli.popular !! Z.to_nat (choice - 1)) as [name|].
  - destruct (bool_decide (1 <= choice)%Z); [|reflexivity].
    destruct (find _ _) as [v|] eqn:Hf; [|reflexivity].
    apply find_some in Hf as [Hv _]. split; [|reflexivity].
    apply list_elem_of_In. exact Hv.
  - destruct (bool_decide (choice = 7)%Z); [|reflexivity].
    pose proof (select_from_all_voices_keeps voices int
                  {| inner := inner c; stdin := rest;
                     screen := screen c ++ [PopularVoices podcast_cli.popular;
                                            Asked AskChoice] |}) as (Hi & Hv & He).
    destruct (podcast_cli.select_from_all_voices voices int _) as [[e|[v|]] c'].
    + split; [apply He; reflexivity | exact Hi].
    + split; [apply Hv; reflexivity | exact Hi].
    + exact Hi.
Qed.

(** ** [text_input_mode] *)

Section TextMode.

Variable env : platform.
Variable voices : list (str * list polly_voice).
Variable int : str -> option Z.
Variable upper : str -> str.

Lemma read_until_end_found body e rest acc :
  Forall (fun line => ~ says_end upper line) body ->
  says_end upper e ->
  podcast_cli.read_until_end upper (body ++ e :: rest) acc = (inr (acc ++ body), rest).
Proof.
  intros Hbody He. revert acc.
  induction Hbody as [|line body Hline _ IH]; intros acc; simpl.
  - rewrite bool_decide_eq_true_2 by exact He. rewrite app_nil_r. reflexivity.
  - rewrite bool_decide_eq_false_2 by exact Hline. rewrite IH, <- app_assoc. reflexivity.
Qed.

Lemma read_until_end_inr pending acc lines rest :
  podcast_cli.read_until_end upper pending acc = (inr lines, rest) ->
  exists body e,
    pending = body ++ e :: rest /\ lines = acc ++ body /\ says_end upper e
    /\ Forall (fun line => ~ says_end upper line) body.
Proof.
  revert acc. induction pending as [|line pending IH]; intros acc; simpl; [discriminate|].
  destruct (bool_decide (upper (strip line) = py "END")) eqn:E.
  - apply bool_decide_eq_true_1 in E. intros [= <- <-].
    exists [], line. rewrite app_nil_r. auto.
  - apply bool_decide_eq_false_1 in E. intros H.
    destruct (IH _ H) as (body & e & -> & -> & He & Hbody).
    exists (line :: body), e. rewrite <- app_assoc. auto.
Qed.

Lemma read_until_end_inl pending acc e rest :
  podcast_cli.read_until_end upper pending acc = (inl e, rest) ->
  e = EOFError /\ rest = [] /\ Forall (fun line => ~ says_end upper line) pending.
Proof.
  revert acc. induction pending as [|line pending IH]; intros acc; simpl.
  - intros [= <- <-]. auto.
  - destruct (bool_decide (upper (strip line) = py "END")) eqn:E; [discriminate|].
    apply bool_decide_eq_false_1 in E. intros H.
    destruct (IH _ H) as (-> & -> & Hp). auto.
Qed.

(** [text_input_mode], step by step. *)
Lemma text_input_mode_cases c :
  podcast_cli.text_input_mode env voices int upper c =
    match podcast_cli.read_until_end upper (stdin c) [] with
    | (inl e, rest) => (inl e, shown [EnterYourText] rest c)
    | (inr lines, rest) =>
        let text := join (py " ") lines in
        if bool_decide (strip text = [])
        then (inr tt, shown [EnterYourText; NoTextEntered] rest c)
        else
          match podcast_cli.select_voice voices int (shown [EnterYourText] rest c) with
          | (inl e, c2) => (inl e, c2)
          | (inr None, c2) => (inr tt, c2)
          | (inr (Some voice), c2) =>
              match podcast_cli.select_engine int voice c2 with
              | (inl e, c3) => (inl e, c3)
              | (inr engine, c3) =>
                  let asked := [Asked (AskOutputFilename (py "output/podcast.mp3"))] in
                  match stdin c3 with
                  | [] => (inl EOFError, shown asked [] c3)
                  | answer :: rest3 =>
                      call (podcast_cli.generate_audio env text
                              (text_mode_output_file answer) (Name voice) engine)
                        (shown asked rest3 c3)
                  end
              end
          end
    end.
Proof.
  unfold podcast_cli.text_input_mode, podcast_cli.read_text_lines.
  unfold mbind at 1, cli_bind at 1, say. cbn [inner stdin screen].
  unfold mbind at 1, cli_bind at 1. cbn [inner stdin screen].
  destruct (podcast_cli.read_until_end upper (stdin c) []) as [[e|lines] rest];
    [reflexivity|].
  cbn zeta. destruct (bool_decide (strip (join (py " ") lines) = [])).
  - unfold shown. cbn. rewrite <- app_assoc. reflexivity.
  - unfold mbind at 1, cli_bind at 1. fold (shown [EnterYourText] rest c).
    destruct (podcast_cli.select_voice voices int _) as [[e|[voice|]] c2];
      [reflexivity| |reflexivity].
    unfold mbind at 1, cli_bind at 1.
    destruct (podcast_cli.select_engine int voice c2) as [[e|engine] c3]; [reflexivity|].
    unfold mbind at 1, cli_bind at 1, input. fold (text_mode_output_file).
    destruct (stdin c3) as [|answer rest3]; reflexivity.
Qed.

End TextMode.

Lemma endswith_app s suffix : endswith (s ++ suffix) suffix = true.
Proof.
  unfold endswith. rewrite length_app.
  replace (length s + length suffix - length suffix)%nat with (length s) by lia.
  rewrite drop_app_length, !bool_decide_eq_true_2; [reflexivity | lia | reflexivity].
Qed.

Lemma text_mode_output_file_mp3 answer :
  endswith (text_mode_output_file answer) (py ".mp3") = true.
Proof.
  unfold text_mode_output_file. cbn zeta.
  set (name := if bool_decide (strip answer = []) then _ else _).
  destruct (endswith name (py ".mp3")) eqn:E; [exact E | apply endswith_app].
Qed.

Lemma call_inner {A} (m : io A) c : inner (snd (call m c)) = snd (m (inner c)).
Proof. unfold call. destruct (m (inner c)) as [[e|a] w']; reflexivity. Qed.

Section TextModeProperties.

Variable env : platform.
Variable voices : list (str * list polly_voice).
Variable int : str -> option Z.
Variable upper : str -> str.

(** X9: whatever is typed, [text_input_mode] creates or changes no file
    but one whose name ends in ".mp3": the extension is added to the name
    given when it is missing. *)
Theorem text_input_mode_writes_only_mp3 (c : console) (path : str) :
  endswith path (py ".mp3") = false ->
  files (inner (snd (podcast_cli.text_input_mode env voices int upper c))) !! path
  = files (inner c) !! path.
Proof.
  intros Hpath. rewrite text_input_mode_cases.
  destruct (podcast_cli.read_until_end upper (stdin c) []) as [[e|lines] rest];
    [reflexivity|].
  cbn zeta. destruct (bool_decide (strip (join (py " ") lines) = [])); [reflexivity|].
  pose proof (select_voice_keeps voices int (shown [EnterYourText] rest c)) as (Hv & _).
  destruct (podcast_cli.select_voice voices int _) as [[e|[voice|]] c2];
    cbn [snd inner shown] in *; try (rewrite Hv; reflexivity).
  pose proof (select_engine_keeps int voice c2) as (He & _).
  destruct (podcast_cli.select_engine int voice c2) as [[e|engine] c3];
    cbn [snd] in *; try (rewrite He, Hv; reflexivity).
  destruct (stdin c3) as [|answer rest3]; [cbn; rewrite He, Hv; reflexivity|].
  rewrite call_inner. cbn [shown inner].
  rewrite cli_generate_audio_other_files; [rewrite He, Hv; reflexivity|].
  intros ->. rewrite text_mode_output_file_mp3 in Hpath. discriminate.
Qed.

(** X10: whatever is typed, [text_input_mode] sends the provider at most
    one call, and a call it sends is a plain-text call whose text is the
    lines typed before the END line joined by single spaces, is not blank
    and is within the limit of the engine; the engine is "neural" or
    "standard", "neural" only for a voice that supports it, and the voice
    is a voice of the catalog, passed by its name. *)
Theorem text_input_mode_sends_checked_call (c : console) :
  let c' := snd (podcast_cli.text_input_mode env voices int upper c) in
  polly_log (inner c') = polly_log (inner c)
  \/ exists text voice engine,
       polly_log (inner c') = polly_log (inner c) ++ [plain_call text (Name voice) engine]
       /\ (exists body e rest,
             stdin c = body ++ e :: rest /\ says_end upper e
             /\ Forall (fun line => ~ says_end upper line) body
             /\ text = join (py " ") body)
       /\ strip text <> []
       /\ len text <= engine_limit engine
       /\ voice ∈ all_voices_of voices
       /\ ((engine = py "neural" /\ py "neural" ∈ supported_engines voice)
           \/ engine = py "standard").
Proof.
  cbn zeta. rewrite text_input_mode_cases.
  destruct (podcast_cli.read_until_end upper (stdin c) []) as [[e|lines] rest] eqn:Hread;
    [left; reflexivity|].
  apply read_until_end_inr in Hread as (body & e & Hin & Hlines & He & Hbody).
  cbn [app] in Hlines. subst lines.
  cbn zeta. destruct (bool_decide (strip (join (py " ") body) = [])) eqn:Hblank;
    [left; reflexivity|].
  apply bool_decide_eq_false_1 in Hblank.
  pose proof (select_voice_keeps voices int (shown [EnterYourText] rest c))
    as (Hv & Hcat & _).
  destruct (podcast_cli.select_voice voices int _) as [[e1|[voice|]] c2];
    cbn [snd fst inner shown] in *; try (left; rewrite Hv; reflexivity).
  pose proof (select_engine_keeps int voice c2) as (Hi & Heng & _).
  destruct (podcast_cli.select_engine int voice c2) as [[e2|engine] c3];
    cbn [snd fst] in *; try (left; congruence).
  destruct (stdin c3) as [|answer rest3]; [left; cbn; congruence|].
  rewrite call_inner, cli_generate_audio_log. cbn [shown inner]. rewrite Hi, Hv.
  destruct (cli_sends env _ _ engine) eqn:Hs; [|left; apply app_nil_r].
  right. exists (join (py " ") body), voice, engine.
  split; [reflexivity|]. split; [eauto 10|]. split; [exact Hblank|].
  split; [|split; [apply Hcat; reflexivity | apply Heng; reflexivity]].
  unfold cli_sends in Hs. destruct (mkdir_error env _); [discriminate|].
  apply negb_true_iff, N.ltb_ge in Hs. exact Hs.
Qed.

(** X11: when the lines typed before the END line are empty or blank,
    [text_input_mode] says so and stops: no voice is asked for, nothing
    is sent or written, and the lines after the END line stay unread. *)
Theorem text_input_mode_blank_text (c : console) (body : list str) (e : str)
    (rest : list str) :
  stdin c = body ++ e :: rest ->
  says_end upper e ->
  Forall (fun line => ~ says_end upper line) body ->
  strip (join (py " ") body) = [] ->
  podcast_cli.text_input_mode env voices int upper c
  = (inr tt, {| inner := inner c; stdin := rest;
                screen := screen c ++ [EnterYourText; NoTextEntered] |}).
Proof.
  intros Hin He Hbody Hblank. rewrite text_input_mode_cases, Hin.
  rewrite (read_until_end_found upper body e rest [] Hbody He). cbn [app]. cbn zeta.
  rewrite bool_decide_eq_true_2 by exact Hblank. reflexivity.
Qed.

(** X12: with the empty catalog that [load_voices] keeps when the
    provider cannot be reached, [text_input_mode] never gets to the
    provider or to a file, whatever is typed: no voice can be selected. *)
Theorem text_input_mode_without_catalog (e : str) (c : console) :
  fst (podcast_cli.load_voices (inl e)) = []
  /\ inner (snd (podcast_cli.text_input_mode env (fst (podcast_cli.load_voices (inl e)))
                   int upper c))
     = inner c.
Proof.
  split; [reflexivity|]. cbn [podcast_cli.load_voices fst].
  clear voices. rewrite text_input_mode_cases.
  destruct (podcast_cli.read_until_end upper (stdin c) []) as [[e0|lines] rest];
    [reflexivity|].
  cbn zeta. destruct (bool_decide (strip (join (py " ") lines) = [])); [reflexivity|].
  pose proof (select_voice_keeps [] int (shown [EnterYourText] rest c)) as (Hv & Hcat & _).
  destruct (podcast_cli.select_voice [] int _) as [[e1|[voice|]] c2];
    cbn [snd fst inner shown] in *; try exact Hv.
  specialize (Hcat voice eq_refl). inversion Hcat.
Qed.

End TextModeProperties.

Lemma text_input_mode_writes_only_mp3_witness :
  files (inner (snd (podcast_cli.text_input_mode (obliging [Byte.x49; Byte.x44])
                       sample_catalog ascii_int ascii_upper
                       (typing [py "Good morning."; py "end"; py "1"; py ""; py "talk"]))))
    !! py "talk" = None
  /\ files (inner (snd (podcast_cli.text_input_mode (obliging [Byte.x49; Byte.x44])
                          sample_catalog ascii_int ascii_upper
                          (typing [py "Good morning."; py "end"; py "1"; py "";
                                   py "talk"]))))
       !! py "talk.mp3" = Some [Byte.x49; Byte.x44].
Proof.
  split; [|vm_compute; reflexivity].
  rewrite (text_input_mode_writes_only_mp3 (obliging [Byte.x49; Byte.x44]) sample_catalog
             ascii_int ascii_upper _ (py "talk") eq_refl).
  reflexivity.
Defined.

Lemma text_input_mode_blank_text_witness :
  podcast_cli.text_input_mode (obliging []) sample_catalog ascii_int ascii_upper
    (typing [py "  "; []; py " End "; py "1"])
  = (inr tt, {| inner := fresh_world; stdin := [py "1"];
                screen := [EnterYourText; NoTextEntered] |}).
Proof.
  apply (text_input_mode_blank_text (obliging []) sample_catalog ascii_int ascii_upper
           (typing [py "  "; []; py " End "; py "1"]) [py "  "; []] (py " End ") [py "1"]).
  - reflexivity.
  - reflexivity.
  - repeat constructor; intros H; vm_compute in H; discriminate H.
  - reflexivity.
Defined.

(** ** [sample_voices_mode] *)

Section SampleMode.

Variable env : platform.

Lemma call_generate_audio text output_file voice_id engine c :
  call (podcast_cli.generate_audio env text output_file voice_id engine) c
  = (inr tt,
     {| inner := snd (podcast_cli.generate_audio env text output_file voice_id engine
                        (inner c));
        stdin := stdin c; screen := screen c |}).
Proof.
  unfold call.
  pose proof (cli_generate_audio_returns env text output_file voice_id engine (inner c))
    as Hret.
  destruct (podcast_cli.generate_audio env text output_file voice_id engine (inner c))
    as [[e|[]] w']; cbn [fst snd] in *; [discriminate | reflexivity].
Qed.



End SampleMode.


(** ** The web front end: download, failures, statuses *)

Section WebProperties.

Variable env : platform.






(** X16: when the provider raises, the endpoint answers 500 with the
    provider's message as it is, and no file is created or changed; the
    call has been sent. *)
Theorem provider_error_passed_on (data : app.json_body) (w : world) (e : str) :
  text_of data <> [] ->
  len (text_of data) <= engine_limit (engine_of data) ->
  synthesize_speech env (call_of data) = inl e ->
  app.generate_podcast env data w
  = (inr (app.Response 500 (app.Failure e)), with_call (call_of data) w)
  /\ files (snd (app.generate_podcast env data w)) = files w.
Proof.
  intros Hne Hle Hs. rewrite generate_podcast_cases.
  rewrite bool_decide_eq_false_2 by exact Hne.
  apply N.ltb_ge in Hle. rewrite Hle, Hs. split; reflexivity.
Qed.

(** X17: the file is opened before the audio is read from the response.
    When reading the audio fails, both front ends leave an empty file at
    the output path, in the place of whatever was there before, and
    report the error: status 500 for the endpoint, an error line for the
    CLI. *)
Theorem failed_read_leaves_empty_file (data : app.json_body)
    (text output_file voice_id engine : str) (w : world) (e : str) :
  (text_of data <> [] ->
   len (text_of data) <= engine_limit (engine_of data) ->
   synthesize_speech env (call_of data) = inr {| AudioStream := inl e |} ->
   open_error env (audio_path (voice_of data) w) = None ->
   fst (app.generate_podcast env data w) = inr (app.Response 500 (app.Failure e))
   /\ files (snd (app.generate_podcast env data w)) !! audio_path (voice_of data) w
      = Some [])
  /\ (cli_sends env text output_file engine = true ->
      synthesize_speech env (plain_call text voice_id engine)
        = inr {| AudioStream := inl e |} ->
      open_error env output_file = None ->
      files (snd (podcast_cli.generate_audio env text output_file voice_id engine w))
        !! output_file = Some []
      /\ last (stdout (snd (podcast_cli.generate_audio env text output_file voice_id
                              engine w)))
         = Some (Errored e)).
Proof.
  split.
  - intros Hne Hle Hs Ho. rewrite generate_podcast_cases.
    rewrite bool_decide_eq_false_2 by exact Hne.
    apply N.ltb_ge in Hle. rewrite Hle, Hs. unfold store_audio. rewrite Ho.
    cbn [AudioStream fst snd with_file files]. split; [reflexivity|].
    apply lookup_insert_eq.
  - intros Hsend Hs Ho. rewrite cli_generate_audio_cases.
    unfold cli_sends in Hsend. destruct (mkdir_error env output_file); [discriminate|].
    apply negb_true_iff in Hsend. cbn zeta. rewrite Hsend, Hs.
    unfold store_audio. rewrite Ho.
    cbn [AudioStream fst snd with_file with_line files stdout].
    split; [apply lookup_insert_eq | apply last_snoc].
Qed.


End WebProperties.


Lemma provider_error_passed_on_witness :
  app.generate_podcast (refusing (py "Rate exceeded")) hello_request fresh_world
  = (inr (app.Response 500 (app.Failure (py "Rate exceeded"))),
     with_call hello_call fresh_world).
Proof.
  apply (proj1 (provider_error_passed_on (refusing (py "Rate exceeded")) hello_request
                  fresh_world (py "Rate exceeded") ltac:(vm_compute; discriminate)
                  ltac:(vm_compute; discriminate) eq_refl)).
Defined.

Lemma failed_read_leaves_empty_file_witness :
  files (snd (podcast_cli.generate_audio (broken_stream (py "Connection reset"))
                (py "Hello.") (py "output/podcast.mp3") (py "Joanna") (py "neural")
                (with_file (py "output/podcast.mp3") [Byte.x49; Byte.x44] fresh_world)))
    !! py "output/podcast.mp3" = Some [].
Proof.
  apply (proj2 (failed_read_leaves_empty_file (broken_stream (py "Connection reset"))
                  hello_request (py "Hello.") (py "output/podcast.mp3") (py "Joanna")
                  (py "neural")
                  (with_file (py "output/podcast.mp3") [Byte.x49; Byte.x44] fresh_world)
                  (py "Connection reset")));
    reflexivity.
Defined.



(** ** Pause insertion *)

Lemma has_pause_site_inert_prefix x y :
  forallb (fun c => negb (is_sentence_end c) && negb (is_comma c)) x = true ->
  has_pause_site (x ++ y) = has_pause_site y.
Proof.
  induction x as [|c x IH]; simpl; [reflexivity|].
  intros H. apply andb_true_iff in H as [Hc Hx].
  apply andb_true_iff in Hc as [Hs Hc]. apply negb_true_iff in Hs, Hc.
  rewrite Hs, Hc, IH by exact Hx. reflexivity.
Qed.

Lemma add_ssml_pauses_no_site T : has_pause_site (add_ssml_pauses T) = false.
Proof.
  induction T as [|c rest IHr IHd] using str_scan_ind; [reflexivity|].
  rewrite add_ssml_pauses_cons.
  destruct (is_sentence_end c && starts_with_space rest) eqn:E1;
    [|destruct (is_comma c && starts_with_space rest) eqn:E2].
  - cbn [has_pause_site]. rewrite (has_pause_site_inert_prefix break500) by reflexivity.
    rewrite IHd. cbn. rewrite andb_false_r. reflexivity.
  - cbn [has_pause_site]. rewrite (has_pause_site_inert_prefix break300) by reflexivity.
    rewrite IHd. cbn. rewrite andb_false_r. reflexivity.
  - cbn [has_pause_site]. rewrite starts_with_space_add_ssml_pauses, IHr.
    rewrite andb_orb_distrib_l, E1, E2. reflexivity.
Qed.

Lemma add_ssml_pauses_fixed T : has_pause_site T = false -> add_ssml_pauses T = T.
Proof.
  induction T as [|c rest IH]; [reflexivity|].
  cbn [has_pause_site]. intros H. apply orb_false_iff in H as [Hc Hrest].
  rewrite andb_orb_distrib_l in Hc. apply orb_false_iff in Hc as [H1 H2].
  rewrite add_ssml_pauses_cons, H1, H2, IH by exact Hrest. reflexivity.
Qed.

(** X19: after pause insertion no sentence-terminal mark and no comma of
    the text is followed by whitespace any more, so inserting pauses a
    second time changes nothing: [add_ssml_pauses] is idempotent. *)
Theorem pause_insertion_is_idempotent (T : str) :
  has_pause_site (add_ssml_pauses T) = false
  /\ add_ssml_pauses (add_ssml_pauses T) = add_ssml_pauses T.
Proof.
  split; [apply add_ssml_pauses_no_site|].
  apply add_ssml_pauses_fixed, add_ssml_pauses_no_site.
Qed.

(** X20: pause insertion leaves a text as it is exactly when no
    sentence-terminal mark and no comma of the text is followed by
    whitespace; such a text, the characters reserved by the markup
    included, is copied as it is and never escaped. *)
Theorem pause_insertion_fixed_points (T : str) :
  add_ssml_pauses T = T <-> has_pause_site T = false.
Proof.
  split; [|apply add_ssml_pauses_fixed].
  intros H. rewrite <- H. apply add_ssml_pauses_no_site.
Qed.

(** ** [file_input_mode] *)

Section FileModeProperties.

Variable env : platform.
Variable voices : list (str * list polly_voice).
Variable int : str -> option Z.
Variable decode_text : list Byte.byte -> exn + str.
Variable stem : str -> str.

(** [file_input_mode], step by step. *)
Lemma file_input_mode_cases c :
  podcast_cli.file_input_mode env voices int decode_text stem c =
    match stdin c with
    | [] => (inl EOFError, shown [Asked AskFilePath] [] c)
    | answer :: rest =>
        let filepath := strip answer in
        let c1 := shown [Asked AskFilePath] rest c in
        match files (inner c) !! filepath with
        | None => (inr tt, saying (FileNotFound filepath) c1)
        | Some content =>
            match decode_text content with
            | inl e => (inr tt, saying (ErrorReadingFile e) c1)
            | inr text =>
                match podcast_cli.select_voice voices int
                        (saying (Loaded (len text) filepath) c1) with
                | (inl e, c3) => (inr tt, saying (ErrorReadingFile e) c3)
                | (inr None, c3) => (inr tt, c3)
                | (inr (Some voice), c3) =>
                    match podcast_cli.select_engine int voice c3 with
                    | (inl e, c4) => (inr tt, saying (ErrorReadingFile e) c4)
                    | (inr engine, c4) =>
                        let output_file := py "output/" ++ stem filepath ++ py "_podcast.mp3" in
                        match stdin c4 with
                        | [] => (inr tt,
                                 saying (ErrorReadingFile EOFError)
                                   (shown [Asked (AskOutputFilename output_file)] [] c4))
                        | answer2 :: rest2 =>
                            call (podcast_cli.generate_audio env text
                                    (if bool_decide (strip answer2 = []) then output_file
                                     else strip answer2)
                                    (Name voice) engine)
                              (shown [Asked (AskOutputFilename output_file)] rest2 c4)
                        end
                    end
                end
            end
        end
    end.
Proof.
  unfold podcast_cli.file_input_mode.
  unfold mbind at 1, cli_bind at 1, input. cbn [inner stdin screen].
  destruct (stdin c) as [|answer rest]; [reflexivity|].
  cbn zeta. unfold mbind at 1, cli_bind at 1, podcast_cli.path_exists.
  cbn [inner stdin screen]. fold (shown [Asked AskFilePath] rest c).
  destruct (files (inner c) !! strip answer) as [content|] eqn:Hf.
  - rewrite bool_decide_eq_true_2 by eauto. cbn [negb].
    unfold except_Exception, mbind at 1, cli_bind at 1, podcast_cli.read_text.
    cbn [shown inner]. rewrite Hf.
    destruct (decode_text content) as [e|text]; [reflexivity|].
    unfold mbind at 1, cli_bind at 1, say at 1. cbn [inner stdin screen].
    unfold mbind at 1, cli_bind at 1.
    fold (saying (Loaded (len text) (strip answer)) (shown [Asked AskFilePath] rest c)).
    change {| inner := inner c; stdin := rest;
              screen := (screen c ++ [Asked AskFilePath])
                        ++ [Loaded (len text) (strip answer)] |}
      with (saying (Loaded (len text) (strip answer)) (shown [Asked AskFilePath] rest c)).
    destruct (podcast_cli.select_voice voices int _) as [[e|[voice|]] c3];
      [reflexivity| |reflexivity].
    unfold mbind at 1, cli_bind at 1.
    destruct (podcast_cli.select_engine int voice c3) as [[e|engine] c4]; [reflexivity|].
    unfold mbind at 1, cli_bind at 1, input.
    destruct (stdin c4) as [|answer2 rest2]; [reflexivity|].
    cbn zeta. rewrite !call_generate_audio. reflexivity.
  - rewrite bool_decide_eq_false_2 by (intros [x Hx]; discriminate). reflexivity.
Qed.

(** X21: once the path has been read, [file_input_mode] never raises:
    every exception of the steps that follow is caught and printed as an
    error of reading the file. So is the end of the input when the voice
    is asked for, although the file was read. *)
Theorem file_input_mode_reports_errors (c : console) (answer : str) (rest : list str) :
  stdin c = answer :: rest ->
  fst (podcast_cli.file_input_mode env voices int decode_text stem c) = inr tt
  /\ (rest = [] ->
      forall content text,
        files (inner c) !! strip answer = Some content ->
        decode_text content = inr text ->
        last (screen (snd (podcast_cli.file_input_mode env voices int decode_text stem c)))
        = Some (ErrorReadingFile EOFError)).
Proof.
  intros Hin. rewrite file_input_mode_cases, Hin. cbn zeta. split.
  - destruct (files (inner c) !! strip answer) as [content|]; [|reflexivity].
    destruct (decode_text content) as [e|text]; [reflexivity|].
    destruct (podcast_cli.select_voice voices int _) as [[e|[voice|]] c3];
      [reflexivity| |reflexivity].
    destruct (podcast_cli.select_engine int voice c3) as [[e|engine] c4]; [reflexivity|].
    destruct (stdin c4) as [|answer2 rest2]; [reflexivity|].
    rewrite call_generate_audio. reflexivity.
  - intros -> content text Hf Hd. rewrite Hf, Hd, select_voice_cases.
    cbn [saying shown stdin]. cbn zeta. cbn [snd saying screen]. apply last_snoc.
Qed.

(** X22: [file_input_mode] sends the text of the file as it was read,
    empty and blank texts included, and writes to the file name typed as
    it is: unlike [text_input_mode] it neither turns a blank text down nor
    adds ".mp3" to the name. *)
Theorem file_input_mode_sends_file_as_is (c c3 c4 : console) (answer answer2 : str)
    (rest rest2 : list str) (content : list Byte.byte) (text engine : str)
    (voice : polly_voice) :
  stdin c = answer :: rest ->
  files (inner c) !! strip answer = Some content ->
  decode_text content = inr text ->
  podcast_cli.select_voice voices int
    (saying (Loaded (len text) (strip answer)) (shown [Asked AskFilePath] rest c))
    = (inr (Some voice), c3) ->
  podcast_cli.select_engine int voice c3 = (inr engine, c4) ->
  stdin c4 = answer2 :: rest2 ->
  strip answer2 <> [] ->
  cli_sends env text (strip answer2) engine = true ->
  let w' := inner (snd (podcast_cli.file_input_mode env voices int decode_text stem c)) in
  polly_log w' = polly_log (inner c) ++ [plain_call text (Name voice) engine]
  /\ (forall audio,
        synthesize_speech env (plain_call text (Name voice) engine)
          = inr {| AudioStream := inr audio |} ->
        open_error env (strip answer2) = None ->
        files w' !! strip answer2 = Some audio).
Proof.
  intros Hin Hf Hd Hv He Hin2 Hname Hsend. cbn zeta.
  rewrite file_input_mode_cases, Hin. cbn zeta. rewrite Hf, Hd, Hv, He, Hin2.
  rewrite bool_decide_eq_false_2 by exact Hname.
  rewrite call_generate_audio. cbn [snd inner shown].
  pose proof (select_voice_keeps voices int
                (saying (Loaded (len text) (strip answer))
                   (shown [Asked AskFilePath] rest c))) as (Hi1 & _).
  rewrite Hv in Hi1. cbn [snd saying shown inner] in Hi1.
  pose proof (select_engine_keeps int voice c3) as (Hi2 & _).
  rewrite He in Hi2. cbn [snd] in Hi2.
  split.
  - rewrite cli_generate_audio_log, Hsend, Hi2, Hi1. reflexivity.
  - intros audio Hs Ho. rewrite cli_generate_audio_cases.
    unfold cli_sends in Hsend. destruct (mkdir_error env _); [discriminate|].
    apply negb_true_iff in Hsend. cbn zeta. rewrite Hsend, Hs.
    rewrite (store_audio_ok env _ audio) by (reflexivity || exact Ho).
    cbn [snd with_line with_file files]. apply lookup_insert_eq.
Qed.

End FileModeProperties.

Lemma file_input_mode_reports_errors_witness :
  fst (podcast_cli.file_input_mode (obliging []) sample_catalog ascii_int ascii_decode
         plain_stem (reading (py "notes.txt") [Byte.x48; Byte.x69] [py " notes.txt "]))
  = inr tt
  /\ last (screen (snd (podcast_cli.file_input_mode (obliging []) sample_catalog ascii_int
                          ascii_decode plain_stem
                          (reading (py "notes.txt") [Byte.x48; Byte.x69]
                             [py " notes.txt "]))))
     = Some (ErrorReadingFile EOFError).
Proof.
  pose proof (file_input_mode_reports_errors (obliging []) sample_catalog ascii_int
                ascii_decode plain_stem
                (reading (py "notes.txt") [Byte.x48; Byte.x69] [py " notes.txt "])
                (py " notes.txt ") [] eq_refl) as [H1 H2].
  split; [exact H1|].
  apply (H2 eq_refl [Byte.x48; Byte.x69] (py "Hi")); vm_compute; reflexivity.
Defined.

Lemma file_input_mode_sends_file_as_is_witness :
  polly_log (inner (snd (podcast_cli.file_input_mode (obliging [Byte.x49; Byte.x44])
                           sample_catalog ascii_int ascii_decode plain_stem
                           (reading (py "notes.txt") [Byte.x20; Byte.x20]
                              [py "notes.txt"; py "1"; py ""; py "talk"]))))
  = [plain_call (py "  ") (py "Joanna") (py "neural")]
  /\ files (inner (snd (podcast_cli.file_input_mode (obliging [Byte.x49; Byte.x44])
                          sample_catalog ascii_int ascii_decode plain_stem
                          (reading (py "notes.txt") [Byte.x20; Byte.x20]
                             [py "notes.txt"; py "1"; py ""; py "talk"]))))
       !! py "talk" = Some [Byte.x49; Byte.x44].
Proof.
  set (c := reading (py "notes.txt") [Byte.x20; Byte.x20]
              [py "notes.txt"; py "1"; py ""; py "talk"]).
  set (c3 := snd (podcast_cli.select_voice sample_catalog ascii_int
                    (saying (Loaded 2 (py "notes.txt"))
                       (shown [Asked AskFilePath] [py "1"; py ""; py "talk"] c)))).
  set (c4 := snd (podcast_cli.select_engine ascii_int joanna c3)).
  pose proof (file_input_mode_sends_file_as_is (obliging [Byte.x49; Byte.x44])
                sample_catalog ascii_int ascii_decode plain_stem c c3 c4
                (py "notes.txt") (py "talk") [py "1"; py ""; py "talk"] []
                [Byte.x20; Byte.x20] (py "  ") (py "neural") joanna) as H.
  destruct H as [H1 H2].
  - reflexivity.
  - vm_compute; reflexivity.
  - reflexivity.
  - vm_compute; reflexivity.
  - vm_compute; reflexivity.
  - reflexivity.
  - intros H; vm_compute in H; discriminate H.
  - vm_compute; reflexivity.
  - split; [exact H1|]. apply H2; reflexivity.
Defined.
